(** * rethink_geo_examples: the demonstration script of main.go

    The program is sequential glue around a document store: connect, (re)create
    a table with a geospatial index, insert five point records, issue three
    nearest-neighbour queries and print what comes back.  Every call that
    leaves the process (driver, store, JSON encoder, logger, clock) is an
    [Event]; the Go functions are programs over these events, and a run is the
    interpretation of a program against an environment that answers them. *)

From Stdlib Require Import ZArith String List PrimFloat.
From stdpp Require Import base option list strings gmap.

Set Warnings "-inexact-float,-register-all".
Open Scope string_scope.
Open Scope list_scope.

(** ** Data model (main.go, lines 13-27) *)

(** [types.Point]: longitude and latitude, float64 degrees. *)
Record Point := { Lon : float; Lat : float }.

(** [type Record struct]; the trailing underscore avoids the vernacular
    keyword. *)
Record Record_ := { Name : string; GeoSpatial : Point }.

(** [type RecordWithDistance struct]; [Doc] is a pointer, [None] is nil. *)
Record RecordWithDistance := { Dist : float; Doc : option Record_ }.

Definition DBName : string := "test".
Definition tableName : string := "geospatial".
Definition indexName : string := "area".

(** [var records] (lines 29-46). *)
Definition records : list Record_ :=
  [ {| Name := "first";
       GeoSpatial := {| Lon := (-122.423246)%float; Lat := 37.77929790366427%float |} |};
    {| Name := "second";
       GeoSpatial := {| Lon := (-122.42326814543915)%float; Lat := 37.77929963483801%float |} |};
    {| Name := "third";
       GeoSpatial := {| Lon := (-122.4232894398445)%float; Lat := 37.779304761831504%float |} |};
    {| Name := "fourth";
       GeoSpatial := {| Lon := (-122.423246)%float; Lat := 37.779478096334365%float |} |};
    {| Name := "fifth";
       GeoSpatial := {| Lon := (-124.423246)%float; Lat := 37.779478096334365%float |} |} ].

(** ** What the program hands to the driver *)

(** Go's [error] interface, reduced to its message. *)
Definition error := string.

Record ConnectOpts := { Address : string }.
Record IndexCreateOpts := { Geo : bool }.

(** [r.GetNearestOpts]: the untyped constants 250, 100 and 1024 are stored in
    [interface{}] fields, hence as integers. *)
Record GetNearestOpts :=
  { Index : string; MaxDist : Z; MaxResults : Z; Unit : string }.

(** The query terms the program builds.  One constructor per driver method
    used in main.go.  The Go closure given to [Do] is applied by the driver to
    a fresh variable; as every closure here binds one variable, [Var] names
    it and [Do arg body] keeps the closure's result.  [Row] is [r.Row]. *)
Inductive Term : Type :=
| DB (name : string)
| Table (name : string)
| TableOf (db : Term) (name : string)
| TableDrop (db : Term) (name : string)
| TableCreate (db : Term) (name : string)
| IndexCreate (tbl : Term) (name : string) (opts : IndexCreateOpts)
| Insert (tbl : Term) (doc : Record_)
| GetNearest (tbl : Term) (point : Point) (opts : GetNearestOpts)
| Do (arg : Term) (body : Term)
| Var
| Row
| Field (t : Term) (name : string)
| Eq (a b : Term)
| Str (s : string)
| Filter (seq : Term) (pred : Term).

(** Values the store holds and sends back.  [VDoc r] is a document that is a
    complete Record: an object with the string field [name] and the point
    field [area] (besides the identifier the store gave it).  [VObj] is any
    other object, by its fields: a table can hold documents written by other
    programs.  [VNear] is one element of a nearest-neighbour answer (the
    object with the fields [dist] and [doc]). *)
Inductive Datum : Type :=
| VStr (s : string)
| VNum (f : float)
| VBool (b : bool)
| VPoint (p : Point)
| VDoc (r : Record_)
| VObj (fields : list (string * Datum))
| VNear (dist : float) (doc : Datum)
| VSeq (l : list Datum).

(** [*r.Session] and [*r.Cursor]; [None] is the nil pointer.  A cursor holds
    the answer it iterates over. *)
Definition Session := option nat.
Definition Cursor := option Datum.

Record WriteResponse := { Inserted : Z; Errors : Z }.

(** Arguments of [log.Println] / [log.Fatalln]. *)
Inductive Arg : Type :=
| AStr (s : string)
| AErr (e : error).

(** The [interface{}] values given to [printStructAsJSON]. *)
Inductive Value : Type :=
| PtrRecordWithDistance (p : option RecordWithDistance)
| PtrRecord (p : option Record_).

(** ** Events: every call that leaves main.go *)

Inductive Event : Type -> Type :=
| Connect (opts : ConnectOpts) : Event (Session * option error)
| Exec (t : Term) (s : Session) : Event (option error)
| RunWrite (t : Term) (s : Session) : Event (WriteResponse * option error)
| Run (t : Term) (s : Session) : Event (Cursor * option error)
  (* [res.All(&rows)]: the callee receives the address of [rows], so the
     answer carries the slice as the call left it together with the error *)
| AllWithDistance (c : Cursor) (rows : list (option RecordWithDistance))
    : Event (list (option RecordWithDistance) * option error)
| AllRecord (c : Cursor) (rows : list (option Record_))
    : Event (list (option Record_) * option error)
| MarshalIndent (v : Value) (pre indent : string)
    : Event (list Byte.byte * option error)
| FmtPrintln (s : string) : Event unit
| LogPrintln (args : list Arg) : Event unit
| Sleep (nanoseconds : Z) : Event unit.

(** ** Programs *)

(** A program returns, performs a call and continues with its answer, ends the
    process through [log.Fatalln] (which logs and exits with status 1), or
    panics. *)
Inductive Prog (R : Type) : Type :=
| Ret (r : R)
| Vis (X : Type) (e : Event X) (k : X -> Prog R)
| Exit (args : list Arg)
| Panic (msg : string).

Arguments Ret {R} r.
Arguments Vis {R X} e k.
Arguments Exit {R} args.
Arguments Panic {R} msg.

Fixpoint bind {A B : Type} (m : Prog A) (f : A -> Prog B) : Prog B :=
  match m with
  | Ret a => f a
  | Vis e k => Vis e (fun x => bind (k x) f)
  | Exit args => Exit args
  | Panic msg => Panic msg
  end.

#[global] Instance Prog_ret : MRet Prog := fun _ r => Ret r.
#[global] Instance Prog_bind : MBind Prog := fun _ _ f m => bind m f.

Definition call {X : Type} (e : Event X) : Prog X := Vis e Ret.

Definition log_Fatalln {R : Type} (args : list Arg) : Prog R := Exit args.

Definition second : Z := 1000000000.

(** [for k := range rows { body(rows[k]) }]: the length is read once, [k]
    counts from 0, and [rows[k]] panics out of range. *)
Fixpoint rangeFrom (k n : nat) (body : nat -> Prog unit) : Prog unit :=
  match n with
  | O => Ret tt
  | S n' => body k ;; rangeFrom (S k) n' body
  end.

Definition index {A : Type} (rows : list A) (k : nat) : Prog A :=
  match rows !! k with
  | Some v => Ret v
  | None => Panic "index out of range"
  end.

(** [for _, x := range xs { body(x) }]. *)
Fixpoint forEach {A : Type} (xs : list A) (body : A -> Prog unit) : Prog unit :=
  match xs with
  | [] => Ret tt
  | x :: xs' => body x ;; forEach xs' body
  end.

(** ** The functions of main.go *)

(** [printStructAsJSON] (lines 184-187). *)
Definition printStructAsJSON (v : Value) : Prog unit :=
  '(b, _) ← call (MarshalIndent v "" "  ");
  call (LogPrintln [AStr (string_of_list_byte b)]).

(** [createTable] (lines 67-80). *)
Definition dropTerm : Term := TableDrop (DB DBName) tableName.
Definition createTerm : Term := TableCreate (DB DBName) tableName.
Definition indexTerm : Term :=
  IndexCreate (TableOf (DB DBName) tableName) indexName {| Geo := true |}.

Definition createTable (session : Session) : Prog unit :=
  call (FmtPrintln "create table and index") ;;
  call (Exec dropTerm session) ;;
  err ← call (Exec createTerm session);
  match err with
  | Some e => log_Fatalln [AStr "Cannot create table: "; AErr e]
  | None => Ret tt
  end ;;
  err ← call (Exec indexTerm session);
  match err with
  | Some e => log_Fatalln [AStr "Cannot create index: "; AErr e]
  | None => Ret tt
  end ;;
  call (FmtPrintln "").

(** [insertRecords] (lines 82-90). *)
Definition insertTerm (record : Record_) : Term :=
  Insert (TableOf (DB DBName) tableName) record.

Definition insertRecord (session : Session) (record : Record_) : Prog unit :=
  '(_, err) ← call (RunWrite (insertTerm record) session);
  match err with
  | Some e => call (LogPrintln [AStr "Cannot create record: "; AErr e])
  | None => Ret tt
  end.

Definition insertRecords (session : Session) : Prog unit :=
  call (FmtPrintln "insert records") ;;
  forEach records (insertRecord session) ;;
  call (FmtPrintln "").

(** The reference coordinate of the three queries. *)
Definition refPoint : Point :=
  {| Lon := (-122.4153346282659)%float; Lat := 37.77874812639591%float |}.

(** [getNearestWithDistances] (lines 92-107). *)
Definition getNearestWithDistances_query : Term :=
  GetNearest (Table tableName) refPoint
    {| Index := indexName; MaxDist := 250; MaxResults := 1024; Unit := "mi" |}.

Definition printRows {A : Type} (inj : A -> Value) (rows : list A) : Prog unit :=
  rangeFrom 0 (length rows) (fun k => v ← index rows k; printStructAsJSON (inj v)).

Definition getNearestWithDistances (session : Session) : Prog unit :=
  call (FmtPrintln "Get nearest records with distances") ;;
  let rows : list (option RecordWithDistance) := [] in
  '(res, err) ← call (Run getNearestWithDistances_query session);
  rows ← match err with
         | Some e => call (LogPrintln [AErr e]) ;; Ret rows
         | None =>
             '(rows, err) ← call (AllWithDistance res rows);
             match err with
             | Some e => call (LogPrintln [AErr e]) ;; Ret rows
             | None => Ret rows
             end
         end;
  printRows PtrRecordWithDistance rows ;;
  call (FmtPrintln "").

(** [getNearest] (lines 143-161). *)
Definition getNearest_query : Term :=
  Do (GetNearest (Table tableName) refPoint
        {| Index := indexName; MaxDist := 100; MaxResults := 1024; Unit := "mi" |})
     (Field Var "doc").

Definition getNearest (session : Session) : Prog unit :=
  call (FmtPrintln "Get just the nearest records") ;;
  let rows : list (option Record_) := [] in
  '(res, err) ← call (Run getNearest_query session);
  rows ← match err with
         | Some e => call (LogPrintln [AErr e]) ;; Ret rows
         | None =>
             '(rows, err) ← call (AllRecord res rows);
             match err with
             | Some e => call (LogPrintln [AErr e]) ;; Ret rows
             | None => Ret rows
             end
         end;
  printRows PtrRecord rows ;;
  call (FmtPrintln "").

(** [getNearestByName] (lines 164-182). *)
Definition getNearestByName_query (name : string) : Term :=
  Filter
    (Do (GetNearest (Table tableName) refPoint
           {| Index := indexName; MaxDist := 100; MaxResults := 1024; Unit := "mi" |})
        (Field Var "doc"))
    (Eq (Field Row "name") (Str name)).

Definition getNearestByName (name : string) (session : Session) : Prog unit :=
  call (FmtPrintln "Chain some additional filters") ;;
  let rows : list (option Record_) := [] in
  '(res, err) ← call (Run (getNearestByName_query name) session);
  rows ← match err with
         | Some e => call (LogPrintln [AErr e]) ;; Ret rows
         | None =>
             '(rows, err) ← call (AllRecord res rows);
             match err with
             | Some e => call (LogPrintln [AErr e]) ;; Ret rows
             | None => Ret rows
             end
         end;
  printRows PtrRecord rows ;;
  call (FmtPrintln "").

(** [main] (lines 48-65). *)
Definition main : Prog unit :=
  '(session, err) ← call (Connect {| Address := "127.0.0.1" |});
  match err with
  | Some e => log_Fatalln [AStr "Cannot connect: "; AErr e]
  | None => Ret tt
  end ;;
  createTable session ;;
  call (Sleep (1 * second)) ;;
  insertRecords session ;;
  call (Sleep (1 * second)) ;;
  getNearestWithDistances session ;;
  call (Sleep (1 * second)) ;;
  getNearest session ;;
  call (Sleep (1 * second)) ;;
  getNearestByName "first" session.

(** ** Runs *)

(** An environment answers every call from its own state. *)
Record Env : Type :=
  { St : Type;
    respond : forall X : Type, Event X -> St -> X * St }.

(** What an observer of the process sees: the calls with their answers, and
    the final [log.Fatalln]. *)
Inductive Obs : Type :=
| Call (X : Type) (e : Event X) (x : X)
| Fatal (args : list Arg).

Arguments Call {X} e x.

Inductive Outcome (R : Type) : Type :=
| Returned (r : R)
| Exited
| Panicked.

Arguments Returned {R} r.
Arguments Exited {R}.
Arguments Panicked {R}.

Fixpoint run (env : Env) {R : Type} (p : Prog R) (s : St env)
  : Outcome R * list Obs * St env :=
  match p with
  | Ret r => (Returned r, [], s)
  | Vis e k =>
      let '(x, s1) := respond env _ e s in
      let '(o, tr, s2) := run env (k x) s1 in
      (o, Call e x :: tr, s2)
  | Exit args => (Exited, [Fatal args], s)
  | Panic _ => (Panicked, [], s)
  end.

Definition outcome {R S : Type} (r : Outcome R * list Obs * S) : Outcome R := r.1.1.
Definition trace {R S : Type} (r : Outcome R * list Obs * S) : list Obs := r.1.2.
Definition final {R S : Type} (r : Outcome R * list Obs * S) : S := r.2.

(** A scripted environment: a stateless test double whose answers are fixed in
    advance.  It supplies concrete runs for the examples below. *)
Record Script : Type :=
  { connectErr : option error;
    execErr : Term -> option error;
    writeErr : Term -> option error;
    runAns : Term -> Cursor * option error;
    allWithDistanceAns : list (option RecordWithDistance) * option error;
    allRecordAns : list (option Record_) * option error;
    marshalAns : Value -> list Byte.byte * option error }.

Definition scripted (sc : Script) : Env :=
  {| St := unit;
     respond := fun X (e : Event X) (s : unit) =>
       match e in Event X return X * unit with
       | Connect _ =>
           ((match connectErr sc with Some _ => None | None => Some 1%nat end,
             connectErr sc), s)
       | Exec t _ => (execErr sc t, s)
       | RunWrite t _ =>
           (({| Inserted := match writeErr sc t with Some _ => 0 | None => 1 end;
                Errors := match writeErr sc t with Some _ => 1 | None => 0 end |},
             writeErr sc t), s)
       | Run t _ => (runAns sc t, s)
       | AllWithDistance _ _ => (allWithDistanceAns sc, s)
       | AllRecord _ _ => (allRecordAns sc, s)
       | MarshalIndent v _ _ => (marshalAns sc v, s)
       | FmtPrintln _ => (tt, s)
       | LogPrintln _ => (tt, s)
       | Sleep _ => (tt, s)
       end |}.

(** The script in which nothing fails and every query answers with nothing. *)
Definition quiet : Script :=
  {| connectErr := None;
     execErr := fun _ => None;
     writeErr := fun _ => None;
     runAns := fun _ => (Some (VSeq []), None);
     allWithDistanceAns := ([], None);
     allRecordAns := ([], None);
     marshalAns := fun _ => ([], None) |}.

(** Scripts with a single fault each. *)
Definition connectFails : Script :=
  {| connectErr := Some "dial tcp 127.0.0.1:28015: connection refused";
     execErr := execErr quiet; writeErr := writeErr quiet; runAns := runAns quiet;
     allWithDistanceAns := allWithDistanceAns quiet;
     allRecordAns := allRecordAns quiet; marshalAns := marshalAns quiet |}.

Definition execFails (failing : Term) (msg : error) : Script :=
  {| connectErr := None;
     execErr := fun t =>
       match t, failing with
       | TableDrop _ _, TableDrop _ _ => Some msg
       | TableCreate _ _, TableCreate _ _ => Some msg
       | IndexCreate _ _ _, IndexCreate _ _ _ => Some msg
       | _, _ => None
       end;
     writeErr := writeErr quiet; runAns := runAns quiet;
     allWithDistanceAns := allWithDistanceAns quiet;
     allRecordAns := allRecordAns quiet; marshalAns := marshalAns quiet |}.

Definition dropFails : Script := execFails dropTerm "Table `test.geospatial` does not exist.".
Definition tableCreateFails : Script := execFails createTerm "Database `test` does not exist.".
Definition indexCreateFails : Script := execFails indexTerm "Index `area` already exists.".

Definition runFails : Script :=
  {| connectErr := None; execErr := execErr quiet; writeErr := writeErr quiet;
     runAns := fun _ => (None, Some "Table `test.geospatial` does not exist.");
     allWithDistanceAns := allWithDistanceAns quiet;
     allRecordAns := allRecordAns quiet; marshalAns := marshalAns quiet |}.

(** The cursor fails after the decoder has already stored one row through the
    address it was given. *)
Definition firstRow : RecordWithDistance :=
  {| Dist := 0.4347245659663054%float;
     Doc := Some {| Name := "first";
                    GeoSpatial := {| Lon := (-122.423246)%float;
                                     Lat := 37.77929790366427%float |} |} |}.

Definition secondHit : Datum :=
  VNear 0.4359197291800397%float
    (VDoc {| Name := "second";
             GeoSpatial := {| Lon := (-122.42326814543915)%float;
                              Lat := 37.77929963483801%float |} |}).

Definition decodeFails : Script :=
  {| connectErr := None; execErr := execErr quiet; writeErr := writeErr quiet;
     runAns := fun _ =>
       (Some (VSeq [VNear (Dist firstRow)
                      (VDoc {| Name := "first";
                               GeoSpatial := {| Lon := (-122.423246)%float;
                                                Lat := 37.77929790366427%float |} |});
                    secondHit]), None);
     allWithDistanceAns := ([Some firstRow], Some "gorethink: connection closed");
     allRecordAns := ([Doc firstRow], Some "gorethink: connection closed");
     marshalAns := marshalAns quiet |}.

(** A value the encoder refuses. *)
Definition marshalFails : Script :=
  {| connectErr := None; execErr := execErr quiet; writeErr := writeErr quiet;
     runAns := runAns quiet;
     allWithDistanceAns := allWithDistanceAns quiet;
     allRecordAns := allRecordAns quiet;
     marshalAns := fun _ => ([], Some "json: unsupported value") |}.

(** ** Reading a run *)

Definition answer (env : Env) {X : Type} (e : Event X) (s : St env) : X :=
  (respond env X e s).1.
Definition after (env : Env) {X : Type} (e : Event X) (s : St env) : St env :=
  (respond env X e s).2.

(** What one pass of the insert loop shows for [record], given the answer of
    the write. *)
Definition insertObs (session : Session) (record : Record_)
    (ans : WriteResponse * option error) : list Obs :=
  Call (RunWrite (insertTerm record) session) ans ::
  match ans.2 with
  | Some e => [Call (LogPrintln [AStr "Cannot create record: "; AErr e]) tt]
  | None => []
  end.

(** What line 85 must show for one document [doc]: the write of
    [r.DB("test").Table("geospatial").Insert(doc)] on the session with its
    answer, and, when the answer carries an error, the log entry of line 86. *)
Definition attemptObs (session : Session) (doc : Record_)
    (ans : WriteResponse * option error) : list Obs :=
  Call (RunWrite (Insert (TableOf (DB "test") "geospatial") doc) session) ans ::
  match ans.2 with
  | Some e => [Call (LogPrintln [AStr "Cannot create record: "; AErr e]) tt]
  | None => []
  end.

(** What one [printStructAsJSON v] shows, given the encoder's answer. *)
Definition printObs (v : Value) (ans : list Byte.byte * option error) : list Obs :=
  [Call (MarshalIndent v "" "  ") ans;
   Call (LogPrintln [AStr (string_of_list_byte ans.1)]) tt].

(** The values handed to [printStructAsJSON] during a run, in order. *)
Definition printedBy (o : Obs) : option Value :=
  match o with
  | Call e _ =>
      match e with
      | MarshalIndent v _ _ => Some v
      | _ => None
      end
  | Fatal _ => None
  end.

Definition printed (tr : list Obs) : list Value := omap printedBy tr.

(** The [log.Println] entries of a run. *)
Definition loggedBy (o : Obs) : option (list Arg) :=
  match o with
  | Call e _ =>
      match e with
      | LogPrintln args => Some args
      | _ => None
      end
  | Fatal _ => None
  end.

Definition logged (tr : list Obs) : list (list Arg) := omap loggedBy tr.

(** The three failures main.go answers with [log.Fatalln], with the arguments
    it passes: a failed [r.Connect], a failed table creation, a failed index
    creation. *)
Definition fatalCause (o : Obs) : option (list Arg) :=
  match o with
  | Call e x =>
      match e in Event X return X -> option (list Arg) with
      | Connect _ => fun x =>
          match x.2 with
          | Some err => Some [AStr "Cannot connect: "; AErr err]
          | None => None
          end
      | Exec (TableCreate _ _) _ => fun x =>
          match x with
          | Some err => Some [AStr "Cannot create table: "; AErr err]
          | None => None
          end
      | Exec (IndexCreate _ _ _) _ => fun x =>
          match x with
          | Some err => Some [AStr "Cannot create index: "; AErr err]
          | None => None
          end
      | _ => fun _ => None
      end x
  | Fatal _ => None
  end.

(** A trace without any of the three. *)
Definition noCause (tr : list Obs) : Prop := Forall (fun o => fatalCause o = None) tr.

(** Programs without a fatal path: no [log.Fatalln], no panic, and none of the
    calls whose failure main.go treats as fatal. *)
Definition harmlessEvent {X : Type} (e : Event X) : bool :=
  match e with
  | Connect _ | Exec _ _ => false
  | _ => true
  end.

Inductive Harmless {R : Type} : Prog R -> Prop :=
| Harmless_Ret (r : R) : Harmless (Ret r)
| Harmless_Vis (X : Type) (e : Event X) (k : X -> Prog R) :
    harmlessEvent e = true -> (forall x, Harmless (k x)) -> Harmless (Vis e k).

(** The steps of [main] after Schema Setup. *)
Definition afterSetup (session : Session) : Prog unit :=
  call (Sleep (1 * second)) ;;
  insertRecords session ;;
  call (Sleep (1 * second)) ;;
  getNearestWithDistances session ;;
  call (Sleep (1 * second)) ;;
  getNearest session ;;
  call (Sleep (1 * second)) ;;
  getNearestByName "first" session.

(** What [createTable] shows, given the answers to the drop, to the table
    creation and to the index creation (the last one is only asked when the
    table creation succeeded). *)
Definition createTableObs (session : Session) (dropAns createAns indexAns : option error)
  : list Obs :=
  Call (FmtPrintln "create table and index") tt ::
  Call (Exec dropTerm session) dropAns ::
  Call (Exec createTerm session) createAns ::
  match createAns with
  | Some e => [Fatal [AStr "Cannot create table: "; AErr e]]
  | None =>
      Call (Exec indexTerm session) indexAns ::
      match indexAns with
      | Some e => [Fatal [AStr "Cannot create index: "; AErr e]]
      | None => [Call (FmtPrintln "") tt]
      end
  end.

Definition createTableOutcome (createAns indexAns : option error) : Outcome unit :=
  match createAns, indexAns with
  | None, None => Returned tt
  | _, _ => Exited
  end.

(** The common body of the three query functions: main.go repeats it three
    times with another header, query and row type. *)
Definition queryOp {A : Type} (header : string) (query : Term)
    (all : Cursor -> list A -> Event (list A * option error)) (inj : A -> Value)
    (session : Session) : Prog unit :=
  call (FmtPrintln header) ;;
  let rows : list A := [] in
  '(res, err) ← call (Run query session);
  rows ← match err with
         | Some e => call (LogPrintln [AErr e]) ;; Ret rows
         | None =>
             '(rows, err) ← call (all res rows);
             match err with
             | Some e => call (LogPrintln [AErr e]) ;; Ret rows
             | None => Ret rows
             end
         end;
  printRows inj rows ;;
  call (FmtPrintln "").

(** Every trace of a query function, by the answers to [Run], to [All] (asked
    only when [Run] succeeded) and to the encoder. *)
Definition queryObs {A : Type} (header : string) (query : Term)
    (all : Cursor -> list A -> Event (list A * option error)) (inj : A -> Value)
    (session : Session) (runAns : Cursor * option error)
    (allAns : list A * option error)
    (answers : list (list Byte.byte * option error)) : list Obs :=
  Call (FmtPrintln header) tt ::
  Call (Run query session) runAns ::
  match runAns.2 with
  | Some e => [Call (LogPrintln [AErr e]) tt; Call (FmtPrintln "") tt]
  | None =>
      Call (all runAns.1 []) allAns ::
      match allAns.2 with
      | Some e => [Call (LogPrintln [AErr e]) tt]
      | None => []
      end ++
      concat (zip_with printObs (map inj allAns.1) answers) ++
      [Call (FmtPrintln "") tt]
  end.

(** A query function whose [Run] failed with [e]. *)
Definition runFailedObs (header : string) (query : Term) (session : Session)
    (res : Cursor) (e : error) : list Obs :=
  [Call (FmtPrintln header) tt;
   Call (Run query session) (res, Some e);
   Call (LogPrintln [AErr e]) tt;
   Call (FmtPrintln "") tt].

(** A query function whose [All] (observation [decode]) failed with [e] and
    left [rows] in the slice; [answers] are the encoder's answers. *)
Definition decodeFailedObs (header : string) (query : Term) (session : Session)
    (res : Cursor) (decode : Obs) (e : error) (rows : list Value)
    (answers : list (list Byte.byte * option error)) : list Obs :=
  [Call (FmtPrintln header) tt;
   Call (Run query session) (res, None);
   decode;
   Call (LogPrintln [AErr e]) tt] ++
  concat (zip_with printObs rows answers) ++
  [Call (FmtPrintln "") tt].

(** The error policy of a query function [op], run from state [s]. *)
Definition logsAndContinues (env : Env) (s : St env) (op : Prog unit)
    {A : Type} (header : string) (query : Term)
    (all : Cursor -> list A -> Event (list A * option error)) (inj : A -> Value)
    (session : Session) : Prop :=
  let s1 := after env (FmtPrintln header) s in
  let s2 := after env (Run query session) s1 in
  (* it returns, and what follows it runs from the state it leaves *)
  outcome (run env op s) = Returned tt /\
  (forall (next : Prog unit),
      run env (op ;; next) s =
        (outcome (run env next (final (run env op s))),
         trace (run env op s) ++ trace (run env next (final (run env op s))),
         final (run env next (final (run env op s))))) /\
  (* a failed [Run]: the error is logged and no row is printed *)
  (forall res e,
      answer env (Run query session) s1 = (res, Some e) ->
      trace (run env op s) = runFailedObs header query session res e) /\
  (* a failed [All]: the error is logged and the rows it left are printed *)
  (forall res rows e,
      answer env (Run query session) s1 = (res, None) ->
      answer env (all res []) s2 = (rows, Some e) ->
      exists answers,
        length answers = length rows /\
        trace (run env op s) =
          decodeFailedObs header query session res (Call (all res []) (rows, Some e)) e
            (map inj rows) answers).

(** ** The document store, as the program relies on it

    The store is an external collaborator: main.go only sends it terms.  This
    reference model gives the terms of main.go the meaning the spec and the
    driver's documentation give them: a store is a finite map from database
    names to tables, a table has named indexes and a list of documents, which
    need not be Records; the geospatial ranking itself ([nearest]), the JSON
    encoder ([render]) and what the driver's decoder makes of a value that is
    not a complete Record ([decoder]) stay parameters. *)

Record TableState : Type :=
  { indexes : gmap string IndexCreateOpts;
    docs : list Datum }.

Abbreviation Store := (gmap string (gmap string TableState)).

Definition emptyTable : TableState := {| indexes := ∅; docs := [] |}.

Definition lookupTable (st : Store) (db tbl : string) : option TableState :=
  tables ← st !! db; tables !! tbl.

Definition tableDrop (db tbl : string) (st : Store) : option error * Store :=
  match st !! db with
  | None => (Some "Database does not exist.", st)
  | Some tables =>
      match tables !! tbl with
      | None => (Some "Table does not exist.", st)
      | Some _ => (None, <[db := delete tbl tables]> st)
      end
  end.

Definition tableCreate (db tbl : string) (st : Store) : option error * Store :=
  match st !! db with
  | None => (Some "Database does not exist.", st)
  | Some tables =>
      match tables !! tbl with
      | Some _ => (Some "Table already exists.", st)
      | None => (None, <[db := <[tbl := emptyTable]> tables]> st)
      end
  end.

Definition indexCreate (db tbl idx : string) (opts : IndexCreateOpts) (st : Store)
  : option error * Store :=
  match st !! db with
  | None => (Some "Database does not exist.", st)
  | Some tables =>
      match tables !! tbl with
      | None => (Some "Table does not exist.", st)
      | Some t =>
          match indexes t !! idx with
          | Some _ => (Some "Index already exists.", st)
          | None =>
              (None,
               <[db := <[tbl := {| indexes := <[idx := opts]> (indexes t);
                                   docs := docs t |}]> tables]> st)
          end
      end
  end.

Definition insertDoc (db tbl : string) (doc : Record_) (st : Store)
  : option error * Store :=
  match st !! db with
  | None => (Some "Database does not exist.", st)
  | Some tables =>
      match tables !! tbl with
      | None => (Some "Table does not exist.", st)
      | Some t =>
          (None,
           <[db := <[tbl := {| indexes := indexes t;
                               docs := docs t ++ [VDoc doc] |}]> tables]> st)
      end
  end.

(** Schema and write terms. *)
Definition execTerm (t : Term) (st : Store) : option error * Store :=
  match t with
  | TableDrop (DB db) tbl => tableDrop db tbl st
  | TableCreate (DB db) tbl => tableCreate db tbl st
  | IndexCreate (TableOf (DB db) tbl) idx opts => indexCreate db tbl idx opts st
  | Insert (TableOf (DB db) tbl) doc => insertDoc db tbl doc st
  | _ => (Some "Expected a write term.", st)
  end.

(** A table term names a database and a table; [r.Table] without a database
    reads the connection's default one, "test". *)
Definition tableRef (t : Term) : option (string * string) :=
  match t with
  | Table tbl => Some ("test", tbl)
  | TableOf (DB db) tbl => Some (db, tbl)
  | _ => None
  end.

(** The first field of that name among the fields of an object. *)
Fixpoint fieldIn (name : string) (fields : list (string * Datum)) : option Datum :=
  match fields with
  | [] => None
  | (k, v) :: rest => if String.eqb k name then Some v else fieldIn name rest
  end.

(** [obj(field)]: the field of an object, under the names of the struct tags;
    [None] when the value is no object or has no such field. *)
Definition fieldOf (name : string) (d : Datum) : option Datum :=
  match d with
  | VDoc r =>
      if String.eqb name "name" then Some (VStr (Name r))
      else if String.eqb name "area" then Some (VPoint (GeoSpatial r))
      else None
  | VObj fields => fieldIn name fields
  | VNear dist doc =>
      if String.eqb name "dist" then Some (VNum dist)
      else if String.eqb name "doc" then Some doc
      else None
  | _ => None
  end.

(** The Record a document is, when it is a complete one: a string [name] and
    a point [area]. *)
Definition recordOf (d : Datum) : option Record_ :=
  match d with
  | VDoc r => Some r
  | VObj fields =>
      match fieldIn "name" fields, fieldIn "area" fields with
      | Some (VStr n), Some (VPoint p) => Some {| Name := n; GeoSpatial := p |}
      | _, _ => None
      end
  | _ => None
  end.

Definition complete (d : Datum) : bool :=
  match recordOf d with
  | Some _ => true
  | None => false
  end.

(** What the filter of Mode C decides on a row: the row has a field [name]
    and it is that string. *)
Definition nameIs (name : string) (d : Datum) : bool :=
  match fieldOf "name" d with
  | Some (VStr n) => String.eqb n name
  | _ => false
  end.

(** What the driver's decoder makes of a value that is not what the target
    type expects (a document without a name, a field of another type, a value
    that is no object): a row, possibly with zero values, or an error
    ([None]). *)
Record Decoder : Type :=
  { looseRecord : Datum -> option (option Record_);
    looseRecordWithDistance : Datum -> option (option RecordWithDistance) }.

(** On a sequence, [Field] takes the field of every element that has it. *)
Definition getField (name : string) (d : Datum) : option Datum :=
  match d with
  | VSeq l => Some (VSeq (omap (fieldOf name) l))
  | _ => fieldOf name d
  end.

Definition datumEq (a b : Datum) : option bool :=
  match a, b with
  | VStr x, VStr y => Some (String.eqb x y)
  | VBool x, VBool y => Some (Bool.eqb x y)
  | VNum x, VNum y => Some (PrimFloat.eqb x y)
  | _, _ => None
  end.

(** [Filter] keeps the rows on which the predicate is true; a predicate that
    fails on a row (a missing field) drops the row. *)
Definition keeps (verdict : option Datum) : bool :=
  match verdict with
  | Some (VBool true) => true
  | _ => false
  end.

Section Store.

(** The store's geospatial primitive: the documents of a table that match
    the reference point and the options, each with its distance. *)
Variable nearest : list Datum -> Point -> GetNearestOpts -> list (float * Datum).

(** The JSON encoder. *)
Variable render : Value -> list Byte.byte.

(** The driver's decoder outside complete Records. *)
Variable decoder : Decoder.

Fixpoint eval (st : Store) (var row : option Datum) (t : Term) : option Datum :=
  match t with
  | GetNearest tbl point opts =>
      ref ← tableRef tbl;
      t ← lookupTable st ref.1 ref.2;
      ix ← indexes t !! Index opts;
      if Geo ix
      then Some (VSeq (map (fun hit => VNear hit.1 hit.2) (nearest (docs t) point opts)))
      else None
  | Do arg body => v ← eval st var row arg; eval st (Some v) row body
  | Var => var
  | Row => row
  | Field t name => v ← eval st var row t; getField name v
  | Eq a b => x ← eval st var row a; y ← eval st var row b; VBool <$> datumEq x y
  | Str s => Some (VStr s)
  | Filter seq pred =>
      v ← eval st var row seq;
      match v with
      | VSeq l => Some (VSeq (List.filter (fun d => keeps (eval st var (Some d) pred)) l))
      | _ => None
      end
  | _ => None
  end.

(** [Cursor.All]: decodes element after element into the slice behind the
    address it was given and stops at the first element that does not fit;
    the slice keeps what was decoded before. *)
Fixpoint decodeAll {A : Type} (dec : Datum -> option A) (l : list Datum)
  : list A * option error :=
  match l with
  | [] => ([], None)
  | d :: l' =>
      match dec d with
      | None => ([], Some "gorethink: could not decode type")
      | Some a => let '(rows, err) := decodeAll dec l' in (a :: rows, err)
      end
  end.

Definition cursorAll {A : Type} (dec : Datum -> option A) (c : Cursor) (rows : list A)
  : list A * option error :=
  match c with
  | None => (rows, Some "gorethink: nil cursor")
  | Some (VSeq l) => decodeAll dec l
  | Some d => decodeAll dec [d]
  end.

(** Decoding into [*Record]: a complete Record decodes to itself; any other
    value is the decoder's. *)
Definition decodeRecord (d : Datum) : option (option Record_) :=
  match recordOf d with
  | Some r => Some (Some r)
  | None => looseRecord decoder d
  end.

(** Decoding into [*RecordWithDistance]: a hit whose document is a complete
    Record decodes to the pair; any other value is the decoder's. *)
Definition decodeRecordWithDistance (d : Datum) : option (option RecordWithDistance) :=
  match d with
  | VNear dist doc =>
      match recordOf doc with
      | Some r => Some (Some {| Dist := dist; Doc := Some r |})
      | None => looseRecordWithDistance decoder d
      end
  | _ => looseRecordWithDistance decoder d
  end.

Definition storeEnv : Env :=
  {| St := Store;
     respond := fun X (e : Event X) (st : Store) =>
       match e in Event X return X * Store with
       | Connect _ => ((Some 1%nat, None), st)
       | Exec t _ => execTerm t st
       | RunWrite t _ =>
           let '(err, st') := execTerm t st in
           (({| Inserted := match err with Some _ => 0 | None => 1 end;
                Errors := match err with Some _ => 1 | None => 0 end |}, err), st')
       | Run t _ =>
           match eval st None None t with
           | Some v => ((Some v, None), st)
           | None => ((None, Some "gorethink: the query failed"), st)
           end
       | AllWithDistance c rows => (cursorAll decodeRecordWithDistance c rows, st)
       | AllRecord c rows => (cursorAll decodeRecord c rows, st)
       | MarshalIndent v _ _ => ((render v, None), st)
       | FmtPrintln _ => (tt, st)
       | LogPrintln _ => (tt, st)
       | Sleep _ => (tt, st)
       end |}.

End Store.

(** Filter of Mode C on decoded rows. *)
Definition hasName (name : string) (v : Value) : bool :=
  match v with
  | PtrRecord (Some r) => String.eqb (Name r) name
  | _ => false
  end.

(** The schema Schema Setup leaves: the table with the one geospatial index
    and no document. *)
Definition freshTable : TableState :=
  {| indexes := {[ indexName := {| Geo := true |} ]}; docs := [] |}.

(** A store in use: the table exists, with the seed records and an index left
    over from an earlier schema. *)
Definition usedTables : gmap string TableState :=
  {[ tableName := {| indexes := {[ "byName" := {| Geo := false |} ]};
                     docs := map VDoc records |} ]}.

Definition usedStore : Store := {[ DBName := usedTables ]}.

(** The documents Mode B matches in a store: the hits of the primitive on the
    table "geospatial" of the default database through a geospatial index
    "area", within 100 miles; [None] when the table or the index is missing. *)
Definition modeBOpts : GetNearestOpts :=
  {| Index := indexName; MaxDist := 100; MaxResults := 1024; Unit := "mi" |}.

Definition modeBHits
    (nearest : list Datum -> Point -> GetNearestOpts -> list (float * Datum))
    (st : Store) : option (list Datum) :=
  t ← lookupTable st "test" tableName;
  ix ← indexes t !! indexName;
  if Geo ix then Some (map snd (nearest (docs t) refPoint modeBOpts)) else None.

(** The hits of Mode A: the same table and index, within 250 miles, each with
    its distance. *)
Definition modeAOpts : GetNearestOpts :=
  {| Index := indexName; MaxDist := 250; MaxResults := 1024; Unit := "mi" |}.

Definition modeAHits
    (nearest : list Datum -> Point -> GetNearestOpts -> list (float * Datum))
    (st : Store) : option (list (float * Datum)) :=
  t ← lookupTable st "test" tableName;
  ix ← indexes t !! indexName;
  if Geo ix then Some (nearest (docs t) refPoint modeAOpts) else None.

(** A store after Schema Setup and the Record Loader. *)
Definition seededStore : Store :=
  {[ DBName := {[ tableName := {| indexes := {[ indexName := {| Geo := true |} ]};
                                  docs := map VDoc records |} ]} ]}.

(** A stand-in for the ranking, for concrete runs: every document of the table
    is a hit, at distance zero, in storage order. *)
Definition flatNearest (ds : list Datum) (_ : Point) (_ : GetNearestOpts)
  : list (float * Datum) :=
  map (fun d => (0%float, d)) ds.

Definition noRender (_ : Value) : list Byte.byte := [].

(** A decoder for concrete runs: a field that is absent from an object is
    left at the zero value of its Go type; a field of another type, and a
    value that is no object, are refused. *)
Definition zeroPoint : Point := {| Lon := 0%float; Lat := 0%float |}.

Definition zeroFillRecord (d : Datum) : option (option Record_) :=
  match d with
  | VObj fields =>
      match
        match fieldIn "name" fields with
        | None => Some ""
        | Some (VStr n) => Some n
        | Some _ => None
        end,
        match fieldIn "area" fields with
        | None => Some zeroPoint
        | Some (VPoint p) => Some p
        | Some _ => None
        end
      with
      | Some n, Some p => Some (Some {| Name := n; GeoSpatial := p |})
      | _, _ => None
      end
  | VNear _ _ => Some (Some {| Name := ""; GeoSpatial := zeroPoint |})
  | _ => None
  end.

Definition zeroFillPointer (d : Datum) : option (option Record_) :=
  match recordOf d with
  | Some r => Some (Some r)
  | None => zeroFillRecord d
  end.

Definition zeroFillRecordWithDistance (d : Datum) : option (option RecordWithDistance) :=
  match d with
  | VDoc _ => Some (Some {| Dist := 0%float; Doc := None |})
  | VNear dist doc =>
      match zeroFillPointer doc with
      | Some r => Some (Some {| Dist := dist; Doc := r |})
      | None => None
      end
  | VObj fields =>
      match
        match fieldIn "dist" fields with
        | None => Some 0%float
        | Some (VNum f) => Some f
        | Some _ => None
        end,
        match fieldIn "doc" fields with
        | None => Some None
        | Some doc => zeroFillPointer doc
        end
      with
      | Some f, Some r => Some (Some {| Dist := f; Doc := r |})
      | _, _ => None
      end
  | _ => None
  end.

Definition zeroFill : Decoder :=
  {| looseRecord := zeroFillRecord;
     looseRecordWithDistance := zeroFillRecordWithDistance |}.

(** A table that holds one document without a name. *)
Definition namelessStore : Store :=
  {[ DBName := {[ tableName := {| indexes := {[ indexName := {| Geo := true |} ]};
                                  docs := [VObj [("area", VPoint refPoint)]] |} ]} ]}.

(** The write of the record named "second" is refused. *)
Definition secondInsertFails : Script :=
  {| connectErr := None; execErr := execErr quiet;
     writeErr := fun t =>
       match t with
       | Insert _ doc =>
           if String.eqb (Name doc) "second" then Some "write refused" else None
       | _ => None
       end;
     runAns := runAns quiet;
     allWithDistanceAns := allWithDistanceAns quiet;
     allRecordAns := allRecordAns quiet; marshalAns := marshalAns quiet |}.

(** ** Further readings of a run *)

(** The lines written with [fmt.Println] and the pauses, in order. *)
Inductive Step : Type :=
| Printed (line : string)
| Slept (nanoseconds : Z).

Definition stepOf (o : Obs) : option Step :=
  match o with
  | Call e _ =>
      match e with
      | FmtPrintln line => Some (Printed line)
      | Sleep d => Some (Slept d)
      | _ => None
      end
  | Fatal _ => None
  end.

Definition steps (tr : list Obs) : list Step := omap stepOf tr.

(** The documents sent with [Insert(...).RunWrite], in order. *)
Definition insertedBy (o : Obs) : option Record_ :=
  match o with
  | Call e _ =>
      match e with
      | RunWrite (Insert _ doc) _ => Some doc
      | _ => None
      end
  | Fatal _ => None
  end.

Definition inserted (tr : list Obs) : list Record_ := omap insertedBy tr.

(** The terms sent with [Run], in order. *)
Definition queriedBy (o : Obs) : option Term :=
  match o with
  | Call e _ =>
      match e with
      | Run t _ => Some t
      | _ => None
      end
  | Fatal _ => None
  end.

Definition queried (tr : list Obs) : list Term := omap queriedBy tr.



(** [Emits P p]: every call the program [p] can make is in the class [P]. *)
Inductive Emits {R : Type} (P : forall X : Type, Event X -> bool) : Prog R -> Prop :=
| Emits_Ret (r : R) : Emits P (Ret r)
| Emits_Vis (X : Type) (e : Event X) (k : X -> Prog R) :
    P X e = true -> (forall x, Emits P (k x)) -> Emits P (Vis e k)
| Emits_Exit (args : list Arg) : Emits P (Exit args)
| Emits_Panic (msg : string) : Emits P (Panic msg).

Definition obsIn (P : forall X : Type, Event X -> bool) (o : Obs) : bool :=
  match o with
  | Call e _ => P _ e
  | Fatal _ => true
  end.

(** Calls on the session [sess]: no new connection, and every term is run on
    [sess]. *)
Definition onSession (sess : Session) (X : Type) (e : Event X) : bool :=
  match e with
  | Connect _ => false
  | Exec _ s | RunWrite _ s | Run _ s => bool_decide (s = sess)
  | _ => true
  end.

(** Calls that change nothing in the store and open no connection. *)
Definition readOnlyEvent (X : Type) (e : Event X) : bool :=
  match e with
  | Connect _ | Exec _ _ | RunWrite _ _ => false
  | _ => true
  end.


(** The log entry of one printed row, given the encoder's answer. *)
Definition rowEntry (ans : list Byte.byte * option error) : list Arg :=
  [AStr (string_of_list_byte ans.1)].

(** A query function whose [Run] and [All] both succeed: run from [s], it
    shows the header, the two calls, every row of the answer printed once in
    the order of the slice, and the closing line; the log holds the rows'
    entries and nothing else. *)
Definition printsEveryRow (env : Env) (s : St env) (op : Prog unit)
    {A : Type} (header : string) (query : Term)
    (all : Cursor -> list A -> Event (list A * option error)) (inj : A -> Value)
    (session : Session) : Prop :=
  let s1 := after env (FmtPrintln header) s in
  let s2 := after env (Run query session) s1 in
  forall res rows,
    answer env (Run query session) s1 = (res, None) ->
    answer env (all res []) s2 = (rows, None) ->
    exists answers,
      length answers = length rows /\
      trace (run env op s) =
        [Call (FmtPrintln header) tt;
         Call (Run query session) (res, None);
         Call (all res []) (rows, None)] ++
        concat (zip_with printObs (map inj rows) answers) ++
        [Call (FmtPrintln "") tt] /\
      printed (trace (run env op s)) = map inj rows /\
      logged (trace (run env op s)) = map rowEntry answers.

(** The table Schema Setup and the Record Loader leave together. *)
Definition seededTable : TableState :=
  {| indexes := {[ indexName := {| Geo := true |} ]}; docs := map VDoc records |}.

(** ** General facts about runs *)

Lemma run_bind (env : Env) {A B : Type} (m : Prog A) (f : A -> Prog B) (s : St env) :
  run env (m ≫= f) s =
  match run env m s with
  | (Returned a, tr, s1) =>
      let '(o, tr', s2) := run env (f a) s1 in (o, tr ++ tr', s2)
  | (Exited, tr, s1) => (Exited, tr, s1)
  | (Panicked, tr, s1) => (Panicked, tr, s1)
  end.
Proof.
  unfold mbind, Prog_bind. revert s.
  induction m as [a | X e k IH | args | msg]; intros s; simpl.
  - destruct (run env (f a) s) as [[o tr] s2]; reflexivity.
  - destruct (respond env X e s) as [x s1]. rewrite IH.
    destruct (run env (k x) s1) as [[[a | | ] tr] s2]; try reflexivity.
    destruct (run env (f a) s2) as [[o tr'] s3]; reflexivity.
  - reflexivity.
  - reflexivity.
Qed.

Lemma run_call (env : Env) {X : Type} (e : Event X) (s : St env) :
  run env (call e) s = (Returned (answer env e s), [Call e (answer env e s)], after env e s).
Proof.
  unfold call, answer, after; simpl.
  destruct (respond env X e s) as [x s1]; reflexivity.
Qed.

(** A program that returns, followed by a continuation. *)
Lemma run_bind_returned (env : Env) {A B : Type} (m : Prog A) (f : A -> Prog B)
    (s s1 : St env) (a : A) (tr : list Obs) :
  run env m s = (Returned a, tr, s1) ->
  run env (m ≫= f) s =
    (outcome (run env (f a) s1), tr ++ trace (run env (f a) s1), final (run env (f a) s1)).
Proof.
  intros H. rewrite run_bind, H.
  destruct (run env (f a) s1) as [[o tr'] s2]; reflexivity.
Qed.

Lemma bind_Ret {A B : Type} (a : A) (f : A -> Prog B) : Ret a ≫= f = f a.
Proof. reflexivity. Qed.

Lemma index_here {A : Type} (done rest : list A) (x : A) :
  index (done ++ x :: rest) (length done) = Ret x.
Proof.
  unfold index. rewrite list_lookup_middle by reflexivity. reflexivity.
Qed.

(** The two readings of a [range] loop agree: walking the indexes and reading
    [rows[k]] never leaves the slice. *)
Lemma rangeFrom_index {A : Type} (f : A -> Prog unit) (done rest : list A) :
  rangeFrom (length done) (length rest) (fun k => v ← index (done ++ rest) k; f v)
  = forEach rest f.
Proof.
  revert done. induction rest as [| x rest IH]; intros done; simpl.
  - reflexivity.
  - rewrite index_here, bind_Ret.
    specialize (IH (done ++ [x])).
    rewrite length_app in IH; simpl in IH.
    rewrite Nat.add_1_r in IH.
    replace ((done ++ [x]) ++ rest) with (done ++ x :: rest) in IH
      by (rewrite <- app_assoc; reflexivity).
    rewrite IH. reflexivity.
Qed.

Lemma printRows_forEach {A : Type} (inj : A -> Value) (rows : list A) :
  printRows inj rows = forEach rows (fun v => printStructAsJSON (inj v)).
Proof.
  unfold printRows. exact (rangeFrom_index (fun v => printStructAsJSON (inj v)) [] rows).
Qed.

(** A loop whose body always returns: the loop returns, and its trace is the
    bodies' traces in the order of the list. *)
Lemma run_forEach (env : Env) {A Ans : Type} (body : A -> Prog unit)
    (obs : A -> Ans -> list Obs) :
  (forall x s, exists ans s', run env (body x) s = (Returned tt, obs x ans, s')) ->
  forall xs s, exists answers s',
    length answers = length xs /\
    run env (forEach xs body) s = (Returned tt, concat (zip_with obs xs answers), s').
Proof.
  intros Hbody xs. induction xs as [| x xs IH]; intros s; simpl.
  - exists [], s. split; reflexivity.
  - destruct (Hbody x s) as (ans & s1 & Hx).
    destruct (IH s1) as (answers & s2 & Hlen & Hxs).
    exists (ans :: answers), s2. split; [simpl; congruence |].
    rewrite (run_bind_returned env _ _ s s1 tt _ Hx), Hxs. reflexivity.
Qed.

Lemma run_printStructAsJSON (env : Env) (v : Value) (s : St env) :
  exists ans s', run env (printStructAsJSON v) s = (Returned tt, printObs v ans, s').
Proof.
  unfold printStructAsJSON, mbind, Prog_bind, call; simpl.
  destruct (respond env _ (MarshalIndent v "" "  ") s) as [[b err] s1]; simpl.
  destruct (respond env unit (LogPrintln [AStr (string_of_list_byte b)]) s1) as [[] s2].
  exists (b, err), s2. reflexivity.
Qed.

(** C10. [printStructAsJSON] drops the error of [json.MarshalIndent]: whatever
    the encoder answers for the value, bytes [b] with an error or without, the
    function makes exactly one [log.Println] call, with [string(b)] as its only
    argument, and returns normally; the error reaches no log call.  (One line
    is one log entry: the indented text itself may span several lines.) *)
Theorem printStructAsJSON_logs_once_ignoring_error :
  forall (env : Env) (s s1 : St env) (v : Value)
         (b : list Byte.byte) (err : option error),
    respond env _ (MarshalIndent v "" "  ") s = ((b, err), s1) ->
    outcome (run env (printStructAsJSON v) s) = Returned tt /\
    trace (run env (printStructAsJSON v) s) =
      [Call (MarshalIndent v "" "  ") (b, err);
       Call (LogPrintln [AStr (string_of_list_byte b)]) tt].
Proof.
  intros env s s1 v b err H.
  unfold printStructAsJSON, mbind, Prog_bind, call; simpl.
  rewrite H; simpl.
  destruct (respond env unit (LogPrintln [AStr (string_of_list_byte b)]) s1) as [[] s2].
  split; reflexivity.
Qed.

(** A value the encoder refuses: one log call with the empty string, and no
    report of the error. *)
Lemma printStructAsJSON_logs_once_witness :
  outcome (run (scripted marshalFails) (printStructAsJSON (PtrRecord None)) tt) = Returned tt /\
  trace (run (scripted marshalFails) (printStructAsJSON (PtrRecord None)) tt) =
    [Call (MarshalIndent (PtrRecord None) "" "  ") ([], Some "json: unsupported value");
     Call (LogPrintln [AStr ""]) tt].
Proof.
  apply (printStructAsJSON_logs_once_ignoring_error (scripted marshalFails) tt tt
           (PtrRecord None) [] (Some "json: unsupported value")).
  reflexivity.
Defined.

Lemma run_printRows (env : Env) {A : Type} (inj : A -> Value) (rows : list A) (s : St env) :
  exists answers s',
    length answers = length rows /\
    run env (printRows inj rows) s =
      (Returned tt, concat (zip_with printObs (map inj rows) answers), s').
Proof.
  rewrite printRows_forEach.
  destruct (run_forEach env (fun v => printStructAsJSON (inj v))
              (fun v ans => printObs (inj v) ans)
              (fun x s0 => run_printStructAsJSON env (inj x) s0) rows s)
    as (answers & s' & Hlen & Hrun).
  exists answers, s'. split; [exact Hlen |].
  rewrite Hrun. f_equal. f_equal. f_equal.
  clear Hrun. revert answers Hlen.
  induction rows as [| r rows IH]; intros [| a answers] Hlen; simpl in *;
    try reflexivity; try discriminate.
  f_equal. apply IH. congruence.
Qed.

Lemma run_insertRecord (env : Env) (session : Session) (record : Record_) (s : St env) :
  exists ans s',
    run env (insertRecord session record) s = (Returned tt, insertObs session record ans, s').
Proof.
  unfold insertRecord, insertObs, mbind, Prog_bind, call; simpl.
  destruct (respond env _ (RunWrite (insertTerm record) session) s) as [[w [e |]] s1]; simpl.
  - destruct (respond env unit (LogPrintln [AStr "Cannot create record: "; AErr e]) s1)
      as [[] s2].
    exists (w, Some e), s2. reflexivity.
  - exists (w, None), s1. reflexivity.
Qed.

Lemma run_call_bind (env : Env) {X B : Type} (e : Event X) (f : X -> Prog B) (s : St env) :
  run env (call e ≫= f) s =
    (outcome (run env (f (answer env e s)) (after env e s)),
     Call e (answer env e s) :: trace (run env (f (answer env e s)) (after env e s)),
     final (run env (f (answer env e s)) (after env e s))).
Proof.
  rewrite (run_bind_returned env _ _ s _ _ _ (run_call env e s)). reflexivity.
Qed.

Lemma unit_tt (u : unit) : u = tt.
Proof. destruct u; reflexivity. Qed.

(** ** Record Loader *)

(** C6. [insertRecords] attempts the five seed records, in list order, one
    write each: whatever the environment, the trace is the header, then for
    "first", "second", "third", "fourth" and "fifth" in turn the write of
    [r.DB("test").Table("geospatial").Insert(record)] with that record's name
    and coordinates (and, if that write failed, the entry "Cannot create
    record: " with its error, after which the next record is attempted all the
    same), then the closing empty line; the loader always returns. *)
Theorem insertRecords_attempts_every_record :
  forall (env : Env) (s : St env) (session : Session),
  exists a1 a2 a3 a4 a5 : WriteResponse * option error,
    outcome (run env (insertRecords session) s) = Returned tt /\
    trace (run env (insertRecords session) s) =
      [Call (FmtPrintln "insert records") tt] ++
      attemptObs session
        {| Name := "first";
           GeoSpatial := {| Lon := (-122.423246)%float;
                            Lat := 37.77929790366427%float |} |} a1 ++
      attemptObs session
        {| Name := "second";
           GeoSpatial := {| Lon := (-122.42326814543915)%float;
                            Lat := 37.77929963483801%float |} |} a2 ++
      attemptObs session
        {| Name := "third";
           GeoSpatial := {| Lon := (-122.4232894398445)%float;
                            Lat := 37.779304761831504%float |} |} a3 ++
      attemptObs session
        {| Name := "fourth";
           GeoSpatial := {| Lon := (-122.423246)%float;
                            Lat := 37.779478096334365%float |} |} a4 ++
      attemptObs session
        {| Name := "fifth";
           GeoSpatial := {| Lon := (-124.423246)%float;
                            Lat := 37.779478096334365%float |} |} a5 ++
      [Call (FmtPrintln "") tt].
Proof.
  intros env s session. unfold insertRecords.
  rewrite run_call_bind.
  rewrite (unit_tt (answer env (FmtPrintln "insert records") s)).
  set (s1 := after env (FmtPrintln "insert records") s).
  destruct (run_forEach env (insertRecord session) (insertObs session)
              (fun x s0 => run_insertRecord env session x s0) records s1)
    as (answers & s2 & Hlen & Hloop).
  destruct answers as [| a1 [| a2 [| a3 [| a4 [| a5 [| a6 answers]]]]]];
    try discriminate Hlen.
  exists a1, a2, a3, a4, a5.
  rewrite (run_bind_returned env _ _ s1 s2 tt _ Hloop).
  rewrite run_call.
  rewrite (unit_tt (answer env (FmtPrintln "") s2)).
  split; [reflexivity |].
  unfold trace; cbn [fst snd records zip_with concat].
  rewrite app_nil_r, <- !app_assoc. reflexivity.
Qed.

(** The second insert fails: it is logged, and the third, fourth and fifth
    records are still inserted. *)
Example insertRecords_second_fails :
  logged (trace (run (scripted secondInsertFails) (insertRecords (Some 1%nat)) tt)) =
    [[AStr "Cannot create record: "; AErr "write refused"]] /\
  omap (fun o => match o with
                 | Call e _ => match e with
                               | RunWrite (Insert _ doc) _ => Some (Name doc)
                               | _ => None
                               end
                 | Fatal _ => None
                 end)
       (trace (run (scripted secondInsertFails) (insertRecords (Some 1%nat)) tt)) =
    ["first"; "second"; "third"; "fourth"; "fifth"].
Proof. split; reflexivity. Qed.

(** ** Programs without a fatal path *)

Lemma harmlessEvent_no_cause {X : Type} (e : Event X) (x : X) :
  harmlessEvent e = true -> fatalCause (Call e x) = None.
Proof. destruct e; simpl; intros H; try discriminate; reflexivity. Qed.

Lemma run_harmless (env : Env) {R : Type} (p : Prog R) :
  Harmless p ->
  forall s, exists r tr s',
    run env p s = (Returned r, tr, s') /\ Forall (fun o => fatalCause o = None) tr.
Proof.
  induction 1 as [r | X e k He Hk IH]; intros s; simpl.
  - exists r, [], s. split; [reflexivity | constructor].
  - destruct (respond env X e s) as [x s1].
    destruct (IH x s1) as (r & tr & s2 & Hrun & Hall).
    rewrite Hrun. exists r, (Call e x :: tr), s2.
    split; [reflexivity |].
    constructor; [apply harmlessEvent_no_cause; exact He | exact Hall].
Qed.

Lemma Harmless_bind {A B : Type} (m : Prog A) (f : A -> Prog B) :
  Harmless m -> (forall a, Harmless (f a)) -> Harmless (m ≫= f).
Proof.
  intros Hm Hf. unfold mbind, Prog_bind.
  induction Hm as [a | X e k He Hk IH]; simpl.
  - apply Hf.
  - constructor; [exact He | exact IH].
Qed.

Lemma Harmless_call {X : Type} (e : Event X) :
  harmlessEvent e = true -> Harmless (call e).
Proof. intros He. constructor; [exact He | intros x; constructor]. Qed.

Lemma Harmless_forEach {A : Type} (xs : list A) (body : A -> Prog unit) :
  (forall x, Harmless (body x)) -> Harmless (forEach xs body).
Proof.
  intros Hbody. induction xs as [| x xs IH]; simpl.
  - constructor.
  - apply Harmless_bind; [apply Hbody | intros _; exact IH].
Qed.

Ltac harmless :=
  repeat first
    [ apply Harmless_bind
    | apply Harmless_call; reflexivity
    | apply Harmless_Ret
    | apply Harmless_forEach
    | intros ?
    | match goal with
      | |- Harmless (match ?x with _ => _ end) => destruct x
      | |- Harmless (let '(_, _) := ?x in _) => destruct x
      end ].

Lemma Harmless_printStructAsJSON (v : Value) : Harmless (printStructAsJSON v).
Proof. unfold printStructAsJSON. harmless. Qed.

Lemma Harmless_printRows {A : Type} (inj : A -> Value) (rows : list A) :
  Harmless (printRows inj rows).
Proof.
  rewrite printRows_forEach. apply Harmless_forEach.
  intros v. apply Harmless_printStructAsJSON.
Qed.

Lemma Harmless_insertRecords (session : Session) : Harmless (insertRecords session).
Proof. unfold insertRecords, insertRecord. harmless. Qed.

Lemma Harmless_getNearestWithDistances (session : Session) :
  Harmless (getNearestWithDistances session).
Proof.
  unfold getNearestWithDistances. harmless; apply Harmless_printRows.
Qed.

Lemma Harmless_getNearest (session : Session) : Harmless (getNearest session).
Proof. unfold getNearest. harmless; apply Harmless_printRows. Qed.

Lemma Harmless_getNearestByName (name : string) (session : Session) :
  Harmless (getNearestByName name session).
Proof. unfold getNearestByName. harmless; apply Harmless_printRows. Qed.

Lemma Harmless_afterSetup (session : Session) : Harmless (afterSetup session).
Proof.
  unfold afterSetup.
  repeat first
    [ apply Harmless_insertRecords
    | apply Harmless_getNearestWithDistances
    | apply Harmless_getNearest
    | apply Harmless_getNearestByName
    | apply Harmless_call; reflexivity
    | apply Harmless_bind
    | intros ? ].
Qed.

(** ** Schema Setup: control flow *)

Lemma run_Exit_bind (env : Env) {A B : Type} (args : list Arg) (f : A -> Prog B)
    (s : St env) :
  run env (log_Fatalln args ≫= f) s = (Exited, [Fatal args], s).
Proof. reflexivity. Qed.

Lemma run_createTable (env : Env) (s : St env) (session : Session) :
  exists dropAns createAns indexAns s',
    run env (createTable session) s =
      (createTableOutcome createAns indexAns,
       createTableObs session dropAns createAns indexAns, s').
Proof.
  unfold createTable.
  rewrite run_call_bind.
  rewrite (unit_tt (answer env (FmtPrintln "create table and index") s)).
  set (s1 := after env (FmtPrintln "create table and index") s).
  rewrite run_call_bind.
  set (dropAns := answer env (Exec dropTerm session) s1).
  set (s2 := after env (Exec dropTerm session) s1).
  rewrite run_call_bind.
  set (s3 := after env (Exec createTerm session) s2).
  destruct (answer env (Exec createTerm session) s2) as [e |] eqn:Hcreate.
  - exists dropAns, (Some e), None, s3. rewrite run_Exit_bind. reflexivity.
  - rewrite bind_Ret, run_call_bind.
    set (s4 := after env (Exec indexTerm session) s3).
    destruct (answer env (Exec indexTerm session) s3) as [e |] eqn:Hindex.
    + exists dropAns, None, (Some e), s4. rewrite run_Exit_bind. reflexivity.
    + rewrite bind_Ret, run_call.
      rewrite (unit_tt (answer env (FmtPrintln "") s4)).
      exists dropAns, None, None, (after env (FmtPrintln "") s4). reflexivity.
Qed.

(** C5 (as amended). Whatever the drop answers, error or none, [createTable]
    discards it: the call that follows the drop is the table creation, no
    [log.Println] entry is written anywhere in [createTable], and the outcome
    is decided by the table and index creations alone. *)
Theorem createTable_drop_error_discarded :
  forall (env : Env) (s : St env) (session : Session),
  exists (dropAns createAns indexAns : option error) (rest : list Obs),
    trace (run env (createTable session) s) =
      Call (FmtPrintln "create table and index") tt ::
      Call (Exec dropTerm session) dropAns ::
      Call (Exec createTerm session) createAns :: rest /\
    logged (trace (run env (createTable session) s)) = [] /\
    outcome (run env (createTable session) s) = createTableOutcome createAns indexAns /\
    trace (run env (createTable session) s) =
      createTableObs session dropAns createAns indexAns.
Proof.
  intros env s session.
  destruct (run_createTable env s session) as (da & ca & ia & s' & Hrun).
  rewrite Hrun. exists da, ca, ia.
  destruct ca as [e |]; [| destruct ia as [e |]]; eexists;
    (split; [reflexivity | split; [reflexivity | split; reflexivity]]).
Qed.

(** C5 (as stated) fails: in a run whose drop fails, on a first run say, the
    table creation follows at once and nothing is logged. *)
Lemma createTable_drop_failure_not_logged :
  trace (run (scripted dropFails) (createTable (Some 1%nat)) tt) =
    [Call (FmtPrintln "create table and index") tt;
     Call (Exec dropTerm (Some 1%nat)) (Some "Table `test.geospatial` does not exist.");
     Call (Exec createTerm (Some 1%nat)) None;
     Call (Exec indexTerm (Some 1%nat)) None;
     Call (FmtPrintln "") tt] /\
  logged (trace (run (scripted dropFails) (createTable (Some 1%nat)) tt)) = [].
Proof. split; reflexivity. Qed.

(** ** Fatal and recoverable failures of [main] *)

Lemma noCause_cause_absent (tr pre post : list Obs) (o : Obs) (args : list Arg) :
  noCause tr -> tr = pre ++ o :: post -> fatalCause o = Some args -> False.
Proof.
  intros Hall -> Hc. unfold noCause in Hall.
  apply Forall_app in Hall as [_ Hall].
  apply Forall_cons in Hall as [Ho _]. congruence.
Qed.

(** In a trace that ends with a fatal cause and its [log.Fatalln], the cause
    is the only one and nothing follows the exit. *)
Lemma cause_is_last (pre0 : list Obs) (o0 : Obs) (args0 : list Arg) :
  noCause pre0 -> fatalCause o0 = Some args0 ->
  forall pre o post args,
    pre0 ++ [o0; Fatal args0] = pre ++ o :: post ->
    fatalCause o = Some args ->
    post = [Fatal args].
Proof.
  intros Hpre Ho0. induction Hpre as [| x pre0 Hx Hpre IH]; intros pre o post args Heq Hc.
  - destruct pre as [| y pre]; simpl in Heq.
    + injection Heq as <- <-. congruence.
    + injection Heq as <- Heq.
      destruct pre as [| z pre]; simpl in Heq.
      * injection Heq as <- <-. discriminate.
      * injection Heq as _ Heq. destruct pre; discriminate.
  - destruct pre as [| y pre]; simpl in Heq.
    + injection Heq as <- _. congruence.
    + injection Heq as _ Heq. exact (IH pre o post args Heq Hc).
Qed.

(** Every run of [main] either runs to completion without any of the three
    fatal causes, or stops right after the first of them. *)
Lemma run_main_shape (env : Env) (s : St env) :
  (outcome (run env main s) = Returned tt /\ noCause (trace (run env main s))) \/
  (exists pre o args,
      noCause pre /\ fatalCause o = Some args /\
      trace (run env main s) = pre ++ [o; Fatal args] /\
      outcome (run env main s) = Exited).
Proof.
  unfold main. rewrite run_call_bind.
  set (s1 := after env (Connect {| Address := "127.0.0.1" |}) s).
  destruct (answer env (Connect {| Address := "127.0.0.1" |}) s) as [session [e |]] eqn:Hc.
  - right. rewrite run_Exit_bind.
    exists [], (Call (Connect {| Address := "127.0.0.1" |}) (session, Some e)),
      [AStr "Cannot connect: "; AErr e].
    repeat split; constructor.
  - rewrite bind_Ret.
    change (createTable session ≫= _) with (createTable session ;; afterSetup session).
    destruct (run_createTable env s1 session) as (da & ca & ia & s2 & Hct).
    rewrite run_bind, Hct.
    destruct ca as [e |]; [| destruct ia as [e |]];
      cbv beta iota delta [createTableOutcome].
    + right.
      exists [Call (Connect {| Address := "127.0.0.1" |}) (session, None);
              Call (FmtPrintln "create table and index") tt;
              Call (Exec dropTerm session) da],
        (Call (Exec createTerm session) (Some e)),
        [AStr "Cannot create table: "; AErr e].
      repeat split. repeat constructor.
    + right.
      exists [Call (Connect {| Address := "127.0.0.1" |}) (session, None);
              Call (FmtPrintln "create table and index") tt;
              Call (Exec dropTerm session) da;
              Call (Exec createTerm session) None],
        (Call (Exec indexTerm session) (Some e)),
        [AStr "Cannot create index: "; AErr e].
      repeat split. repeat constructor.
    + left.
      destruct (run_harmless env _ (Harmless_afterSetup session) s2)
        as ([] & tr & s3 & Hrest & Hall).
      rewrite Hrest. split; [reflexivity |].
      unfold noCause, trace; simpl. repeat (constructor; [reflexivity |]). exact Hall.
Qed.

(** C4. In every run of [main]: a failed connection, a failed table creation
    or a failed index creation is followed by [log.Fatalln] with its cause and
    by nothing else, and the process has exited; conversely the process either
    runs to completion or has exited right after one of these three, so no
    other failure (drop, insert, query, decode, encode) ends it, nor does a
    panic. *)
Theorem main_exits_exactly_on_fatal_causes :
  forall (env : Env) (s : St env),
    (forall pre o post args,
        trace (run env main s) = pre ++ o :: post ->
        fatalCause o = Some args ->
        post = [Fatal args] /\ outcome (run env main s) = Exited) /\
    (outcome (run env main s) = Returned tt \/
     exists pre o args,
       fatalCause o = Some args /\
       trace (run env main s) = pre ++ [o; Fatal args] /\
       outcome (run env main s) = Exited).
Proof.
  intros env s.
  destruct (run_main_shape env s)
    as [[Hout Hall] | (pre0 & o0 & args0 & Hpre & Ho0 & Htr & Hout)].
  - split.
    + intros pre o post args Heq Hc.
      destruct (noCause_cause_absent _ _ _ _ _ Hall Heq Hc).
    + left. exact Hout.
  - split.
    + intros pre o post args Heq Hc. split; [| exact Hout].
      rewrite Htr in Heq.
      exact (cause_is_last pre0 o0 args0 Hpre Ho0 pre o post args Heq Hc).
    + right. exists pre0, o0, args0. repeat split; assumption.
Qed.

(** The table creation fails: the process stops there. *)
Lemma main_exits_on_table_creation_failure :
  [Fatal [AStr "Cannot create table: "; AErr "Database `test` does not exist."]] =
  [Fatal [AStr "Cannot create table: "; AErr "Database `test` does not exist."]] /\
  outcome (run (scripted tableCreateFails) main tt) = Exited.
Proof.
  apply (proj1 (main_exits_exactly_on_fatal_causes (scripted tableCreateFails) tt)
           [Call (Connect {| Address := "127.0.0.1" |}) (Some 1%nat, None);
            Call (FmtPrintln "create table and index") tt;
            Call (Exec dropTerm (Some 1%nat)) None]
           (Call (Exec createTerm (Some 1%nat)) (Some "Database `test` does not exist."))).
  - reflexivity.
  - reflexivity.
Defined.

(** ** Query Facade: error policy *)

Lemma getNearestWithDistances_queryOp (session : Session) :
  getNearestWithDistances session =
  queryOp "Get nearest records with distances" getNearestWithDistances_query
    AllWithDistance PtrRecordWithDistance session.
Proof. reflexivity. Qed.

Lemma getNearest_queryOp (session : Session) :
  getNearest session =
  queryOp "Get just the nearest records" getNearest_query AllRecord PtrRecord session.
Proof. reflexivity. Qed.

Lemma getNearestByName_queryOp (name : string) (session : Session) :
  getNearestByName name session =
  queryOp "Chain some additional filters" (getNearestByName_query name)
    AllRecord PtrRecord session.
Proof. reflexivity. Qed.

Lemma run_call_bind_ans (env : Env) {X B : Type} (e : Event X) (f : X -> Prog B)
    (s s' : St env) (x : X) (o : Outcome B) (tr : list Obs) :
  answer env e s = x ->
  run env (f x) (after env e s) = (o, tr, s') ->
  run env (call e ≫= f) s = (o, Call e x :: tr, s').
Proof. intros <- H. rewrite run_call_bind, H. reflexivity. Qed.

Lemma run_call_ans (env : Env) {X : Type} (e : Event X) (s : St env) (x : X) :
  answer env e s = x ->
  run env (call e) s = (Returned x, [Call e x], after env e s).
Proof. intros <-. apply run_call. Qed.

Lemma run_bind_eq (env : Env) {A B : Type} (m : Prog A) (f : A -> Prog B)
    (s s1 s2 : St env) (a : A) (o : Outcome B) (tr tr' : list Obs) :
  run env m s = (Returned a, tr, s1) ->
  run env (f a) s1 = (o, tr', s2) ->
  run env (m ≫= f) s = (o, tr ++ tr', s2).
Proof. intros Hm Hf. rewrite (run_bind_returned env _ _ _ _ _ _ Hm), Hf. reflexivity. Qed.

(** Printing the rows and closing the block. *)
Lemma run_print_block (env : Env) {A : Type} (inj : A -> Value) (rows : list A)
    (s : St env) :
  exists answers s',
    length answers = length rows /\
    run env (printRows inj rows ;; call (FmtPrintln "")) s =
      (Returned tt,
       concat (zip_with printObs (map inj rows) answers) ++ [Call (FmtPrintln "") tt], s').
Proof.
  destruct (run_printRows env inj rows s) as (answers & s1 & Hlen & Hprint).
  exists answers, (after env (FmtPrintln "") s1). split; [exact Hlen |].
  eapply run_bind_eq; [exact Hprint |].
  apply run_call_ans, unit_tt.
Qed.

(** The full trace of a query function. *)
Lemma run_queryOp (env : Env) {A : Type} (header : string) (query : Term)
    (all : Cursor -> list A -> Event (list A * option error)) (inj : A -> Value)
    (session : Session) (s : St env) :
  let s1 := after env (FmtPrintln header) s in
  let s2 := after env (Run query session) s1 in
  let runAns := answer env (Run query session) s1 in
  let allAns := answer env (all runAns.1 []) s2 in
  exists answers s',
    run env (queryOp header query all inj session) s =
      (Returned tt, queryObs header query all inj session runAns allAns answers, s') /\
    (runAns.2 = None -> length answers = length allAns.1).
Proof.
  intros s1 s2 runAns allAns. unfold queryOp, queryObs.
  destruct runAns as [res [e |]] eqn:Hrun; cbn [fst snd].
  - destruct (run_print_block env inj [] (after env (LogPrintln [AErr e]) s2))
      as (answers & s' & Hlen & Hblock).
    destruct answers; [| discriminate].
    exists [], s'. split; [| discriminate].
    eapply run_call_bind_ans; [apply unit_tt |]. fold s1.
    eapply run_call_bind_ans; [exact Hrun |]. fold s2. cbv beta iota.
    eapply (run_bind_eq env _ _ _ _ _ [] _ [Call (LogPrintln [AErr e]) tt]
              (concat (zip_with printObs (map inj []) []) ++ [Call (FmtPrintln "") tt])).
    + eapply run_call_bind_ans; [apply unit_tt | reflexivity].
    + exact Hblock.
  - subst allAns. cbn [fst snd].
    set (s3 := after env (all res []) s2).
    destruct (answer env (all res []) s2) as [rows [e |]] eqn:Hall; cbn [fst snd].
    + destruct (run_print_block env inj rows (after env (LogPrintln [AErr e]) s3))
        as (answers & s' & Hlen & Hblock).
      exists answers, s'. split; [| intros _; exact Hlen].
      eapply run_call_bind_ans; [apply unit_tt |]. fold s1.
      eapply run_call_bind_ans; [exact Hrun |]. fold s2. cbv beta iota.
      eapply (run_bind_eq env _ _ _ _ _ rows _
                [Call (all res []) (rows, Some e); Call (LogPrintln [AErr e]) tt]
                (concat (zip_with printObs (map inj rows) answers) ++
                 [Call (FmtPrintln "") tt])).
      * eapply run_call_bind_ans; [exact Hall |]. fold s3. cbv beta iota.
        eapply run_call_bind_ans; [apply unit_tt | reflexivity].
      * exact Hblock.
    + destruct (run_print_block env inj rows s3) as (answers & s' & Hlen & Hblock).
      exists answers, s'. split; [| intros _; exact Hlen].
      eapply run_call_bind_ans; [apply unit_tt |]. fold s1.
      eapply run_call_bind_ans; [exact Hrun |]. fold s2. cbv beta iota.
      eapply (run_bind_eq env _ _ _ _ _ rows _ [Call (all res []) (rows, None)]
                (concat (zip_with printObs (map inj rows) answers) ++
                 [Call (FmtPrintln "") tt])).
      * eapply run_call_bind_ans; [exact Hall |]. reflexivity.
      * exact Hblock.
Qed.

Lemma queryOp_logsAndContinues (env : Env) (s : St env) {A : Type} (header : string)
    (query : Term) (all : Cursor -> list A -> Event (list A * option error))
    (inj : A -> Value) (session : Session) :
  logsAndContinues env s (queryOp header query all inj session) header query all inj session.
Proof.
  destruct (run_queryOp env header query all inj session s)
    as (answers & s' & Hrun & Hlen).
  unfold logsAndContinues. rewrite Hrun.
  split; [reflexivity |]. split; [| split].
  - intros next. rewrite (run_bind_returned env _ _ _ _ _ _ Hrun). reflexivity.
  - intros res e Hans. rewrite Hans. reflexivity.
  - intros res rows e Hans Hall.
    rewrite Hans in Hlen |- *. simpl in Hlen |- *.
    rewrite Hall in Hlen |- *. simpl in Hlen |- *.
    exists answers. split; [apply Hlen; reflexivity | reflexivity].
Qed.

(** C8 (as amended). Each of the three query functions always returns, and
    what follows it runs from the state it leaves, whatever failed inside.
    When its [Run] fails, the error is logged and no row is printed.  When its
    [All] fails, the error is logged and the print loop runs once for every
    row [All] left in the slice: none if it left none, but a decoder that had
    stored rows before failing gets them printed. *)
Theorem query_functions_log_and_continue :
  forall (env : Env) (s : St env) (session : Session) (name : string),
    logsAndContinues env s (getNearestWithDistances session)
      "Get nearest records with distances" getNearestWithDistances_query
      AllWithDistance PtrRecordWithDistance session /\
    logsAndContinues env s (getNearest session)
      "Get just the nearest records" getNearest_query AllRecord PtrRecord session /\
    logsAndContinues env s (getNearestByName name session)
      "Chain some additional filters" (getNearestByName_query name)
      AllRecord PtrRecord session.
Proof.
  intros env s session name.
  rewrite getNearestWithDistances_queryOp, getNearest_queryOp, getNearestByName_queryOp.
  split; [| split]; apply queryOp_logsAndContinues.
Qed.

(** The table is missing, the query is refused: the error is logged, no row is
    printed. *)
Lemma query_functions_log_and_continue_witness :
  trace (run (scripted runFails) (getNearestWithDistances (Some 1%nat)) tt) =
    runFailedObs "Get nearest records with distances" getNearestWithDistances_query
      (Some 1%nat) None "Table `test.geospatial` does not exist.".
Proof.
  destruct (query_functions_log_and_continue (scripted runFails) tt (Some 1%nat) "first")
    as [(_ & _ & Hrun & _) _].
  apply Hrun. reflexivity.
Defined.

(** C8 (as stated) fails for a failed decode: [All] was given the address of
    [rows], and when the connection drops after the first row the slice holds
    that row; the error is logged and the row is printed all the same. *)
Lemma decode_failure_still_prints :
  trace (run (scripted decodeFails) (getNearestWithDistances (Some 1%nat)) tt) =
    [Call (FmtPrintln "Get nearest records with distances") tt;
     Call (Run getNearestWithDistances_query (Some 1%nat)) (runAns decodeFails (Str ""));
     Call (AllWithDistance (runAns decodeFails (Str "")).1 [])
       ([Some firstRow], Some "gorethink: connection closed");
     Call (LogPrintln [AErr "gorethink: connection closed"]) tt;
     Call (MarshalIndent (PtrRecordWithDistance (Some firstRow)) "" "  ") ([], None);
     Call (LogPrintln [AStr ""]) tt;
     Call (FmtPrintln "") tt] /\
  printed (trace (run (scripted decodeFails) (getNearestWithDistances (Some 1%nat)) tt)) =
    [PtrRecordWithDistance (Some firstRow)].
Proof. split; reflexivity. Qed.

(** ** Schema Setup against the store *)

Section StoreFacts.

Variable nearest : list Datum -> Point -> GetNearestOpts -> list (float * Datum).
Variable render : Value -> list Byte.byte.
Variable decoder : Decoder.

Lemma tableDrop_state (db tbl : string) (st : Store) (tables : gmap string TableState) :
  st !! db = Some tables ->
  (tableDrop db tbl st).2 = <[db := delete tbl tables]> st.
Proof.
  intros Hdb. unfold tableDrop. rewrite Hdb.
  destruct (tables !! tbl) as [t |] eqn:Htbl; simpl.
  - reflexivity.
  - rewrite delete_id by exact Htbl. symmetry. apply insert_id. exact Hdb.
Qed.

Lemma tableCreate_after_drop (db tbl : string) (st : Store)
    (tables : gmap string TableState) :
  tableCreate db tbl (<[db := delete tbl tables]> st) =
    (None, <[db := <[tbl := emptyTable]> tables]> st).
Proof.
  unfold tableCreate. rewrite lookup_insert_eq, lookup_delete_eq.
  rewrite insert_insert_eq, insert_delete_eq. reflexivity.
Qed.

Lemma indexCreate_on_empty (db tbl idx : string) (opts : IndexCreateOpts) (st : Store)
    (tables : gmap string TableState) :
  indexCreate db tbl idx opts (<[db := <[tbl := emptyTable]> tables]> st) =
    (None, <[db := <[tbl := {| indexes := {[ idx := opts ]}; docs := [] |}]> tables]> st).
Proof.
  unfold indexCreate. rewrite !lookup_insert_eq. simpl.
  rewrite lookup_empty, !insert_insert_eq, insert_empty. reflexivity.
Qed.

(** Against a store that has the database, [createTable] returns and leaves
    the table fresh: one geospatial index, no document. *)
Lemma run_createTable_store (st : Store) (tables : gmap string TableState)
    (session : Session) :
  st !! DBName = Some tables ->
  run (storeEnv nearest render decoder) (createTable session) st =
    (Returned tt,
     createTableObs session (tableDrop DBName tableName st).1 None None,
     <[DBName := <[tableName := freshTable]> tables]> st).
Proof.
  intros Hdb. unfold createTable, createTableObs.
  eapply run_call_bind_ans; [reflexivity |].
  eapply run_call_bind_ans; [reflexivity |].
  change (after (storeEnv nearest render decoder) (Exec dropTerm session)
            (after (storeEnv nearest render decoder) (FmtPrintln "create table and index") st))
    with (tableDrop DBName tableName st).2.
  rewrite (tableDrop_state _ _ _ _ Hdb).
  eapply run_call_bind_ans.
  { change (answer (storeEnv nearest render decoder) (Exec createTerm session) ?s)
      with (tableCreate DBName tableName s).1.
    rewrite tableCreate_after_drop. reflexivity. }
  change (after (storeEnv nearest render decoder) (Exec createTerm session) ?s)
    with (tableCreate DBName tableName s).2.
  rewrite tableCreate_after_drop. cbn [fst snd]. rewrite bind_Ret.
  eapply run_call_bind_ans.
  { change (answer (storeEnv nearest render decoder) (Exec indexTerm session) ?s)
      with (indexCreate DBName tableName indexName {| Geo := true |} s).1.
    rewrite indexCreate_on_empty. reflexivity. }
  change (after (storeEnv nearest render decoder) (Exec indexTerm session) ?s)
    with (indexCreate DBName tableName indexName {| Geo := true |} s).2.
  rewrite indexCreate_on_empty. cbn [fst snd]. rewrite bind_Ret.
  apply run_call_ans. reflexivity.
Qed.

(** C7 (as amended). For every starting store that has the database
    "test", whatever its tables hold: Schema Setup returns; run twice in a
    row it returns again and leaves the very store one run leaves; and that
    store is the starting one with the table "geospatial" replaced by a
    fresh table, whose only index is the geospatial index "area" and which
    holds no document (earlier documents and indexes of that table are
    gone, other tables are untouched). *)
Theorem createTable_twice_same_schema :
  forall (st : Store) (tables : gmap string TableState) (session : Session),
    st !! DBName = Some tables ->
    outcome (run (storeEnv nearest render decoder) (createTable session) st) = Returned tt /\
    outcome (run (storeEnv nearest render decoder)
               (createTable session ;; createTable session) st) = Returned tt /\
    final (run (storeEnv nearest render decoder)
             (createTable session ;; createTable session) st) =
      final (run (storeEnv nearest render decoder) (createTable session) st) /\
    final (run (storeEnv nearest render decoder) (createTable session) st) =
      <[DBName := <[tableName := freshTable]> tables]> st /\
    lookupTable (final (run (storeEnv nearest render decoder) (createTable session) st))
      DBName tableName =
      Some {| indexes := {[ indexName := {| Geo := true |} ]}; docs := [] |}.
Proof.
  intros st tables session Hdb.
  pose proof (run_createTable_store st tables session Hdb) as Hone.
  assert (Hdb1 : (<[DBName := <[tableName := freshTable]> tables]> st : Store) !! DBName
                 = Some (<[tableName := freshTable]> tables))
    by apply lookup_insert_eq.
  pose proof (run_createTable_store _ _ session Hdb1) as Hsecond.
  rewrite !insert_insert_eq in Hsecond.
  rewrite (run_bind_eq _ _ _ _ _ _ _ _ _ _ Hone Hsecond), Hone.
  repeat split.
  unfold final, lookupTable; simpl.
  rewrite lookup_insert_eq; simpl. rewrite lookup_insert_eq. reflexivity.
Qed.

End StoreFacts.

(** C7 (as stated) fails on a store without the database "test": the table
    creation is refused, [createTable] exits, and no table exists. *)
Lemma createTable_without_database_exits :
  outcome (run (storeEnv (fun _ _ _ => []) (fun _ => []) zeroFill) (createTable (Some 1%nat)) ∅)
    = Exited /\
  trace (run (storeEnv (fun _ _ _ => []) (fun _ => []) zeroFill) (createTable (Some 1%nat)) ∅) =
    [Call (FmtPrintln "create table and index") tt;
     Call (Exec dropTerm (Some 1%nat)) (Some "Database does not exist.");
     Call (Exec createTerm (Some 1%nat)) (Some "Database does not exist.");
     Fatal [AStr "Cannot create table: "; AErr "Database does not exist."]] /\
  lookupTable
    (final (run (storeEnv (fun _ _ _ => []) (fun _ => []) zeroFill) (createTable (Some 1%nat)) ∅))
    DBName tableName = None.
Proof. repeat split. Qed.

(** Setup on a store in use. *)
Lemma createTable_twice_same_schema_witness :
  outcome (run (storeEnv (fun _ _ _ => []) (fun _ => []) zeroFill)
             (createTable (Some 1%nat)) usedStore) = Returned tt /\
  outcome (run (storeEnv (fun _ _ _ => []) (fun _ => []) zeroFill)
             (createTable (Some 1%nat) ;; createTable (Some 1%nat)) usedStore)
    = Returned tt /\
  final (run (storeEnv (fun _ _ _ => []) (fun _ => []) zeroFill)
           (createTable (Some 1%nat) ;; createTable (Some 1%nat)) usedStore) =
    final (run (storeEnv (fun _ _ _ => []) (fun _ => []) zeroFill)
             (createTable (Some 1%nat)) usedStore) /\
  final (run (storeEnv (fun _ _ _ => []) (fun _ => []) zeroFill)
           (createTable (Some 1%nat)) usedStore) =
    <[DBName := <[tableName := freshTable]> usedTables]> usedStore /\
  lookupTable
    (final (run (storeEnv (fun _ _ _ => []) (fun _ => []) zeroFill)
              (createTable (Some 1%nat)) usedStore))
    DBName tableName =
    Some {| indexes := {[ indexName := {| Geo := true |} ]}; docs := [] |}.
Proof.
  apply (createTable_twice_same_schema (fun _ _ _ => []) (fun _ => []) zeroFill
           usedStore usedTables (Some 1%nat)).
  reflexivity.
Defined.

(** ** Mode C against Mode B *)

Lemma printed_prints (vs : list Value) (answers : list (list Byte.byte * option error)) :
  length answers = length vs ->
  printed (concat (zip_with printObs vs answers)) = vs.
Proof.
  revert answers. induction vs as [| v vs IH]; intros [| a answers] Hlen;
    simpl in *; try discriminate; try reflexivity.
  unfold printed in *. simpl. f_equal. apply IH. congruence.
Qed.

Lemma printed_cons_none (o : Obs) (tr : list Obs) :
  printedBy o = None -> printed (o :: tr) = printed tr.
Proof. intros H. unfold printed; simpl. rewrite H. reflexivity. Qed.

Lemma printed_app (tr1 tr2 : list Obs) : printed (tr1 ++ tr2) = printed tr1 ++ printed tr2.
Proof. apply omap_app. Qed.

(** What a query function prints: nothing when [Run] fails, else the rows
    [All] left. *)
Lemma printed_queryObs {A : Type} (header : string) (query : Term)
    (all : Cursor -> list A -> Event (list A * option error)) (inj : A -> Value)
    (session : Session) (runAns : Cursor * option error) (allAns : list A * option error)
    (answers : list (list Byte.byte * option error)) :
  (forall c rows x, printedBy (Call (all c rows) x) = None) ->
  (runAns.2 = None -> length answers = length allAns.1) ->
  printed (queryObs header query all inj session runAns allAns answers) =
    match runAns.2 with
    | Some _ => []
    | None => map inj allAns.1
    end.
Proof.
  intros Hall Hlen. unfold queryObs.
  destruct runAns as [res [e |]]; cbn [fst snd] in *; [reflexivity |].
  rewrite !printed_cons_none by (first [reflexivity | apply Hall]).
  rewrite !printed_app.
  rewrite printed_prints by (rewrite length_map; apply Hlen; reflexivity).
  destruct allAns as [rows [e |]]; simpl; rewrite app_nil_r; reflexivity.
Qed.

Section Refinement.

Variable nearest : list Datum -> Point -> GetNearestOpts -> list (float * Datum).
Variable render : Value -> list Byte.byte.
Variable decoder : Decoder.

Lemma project_docs (hits : list (float * Datum)) :
  omap (fieldOf "doc") (map (fun hit => VNear hit.1 hit.2) hits) = map snd hits.
Proof.
  induction hits as [| [d r] hits IH]; simpl; [reflexivity |].
  f_equal. exact IH.
Qed.

(** The filter of Mode C on one row of the store's sequence. *)
Lemma name_filter_on_row (st : Store) (var : option Datum) (name : string) (d : Datum) :
  keeps (eval nearest st var (Some d) (Eq (Field Row "name") (Str name))) = nameIs name d.
Proof.
  unfold nameIs. cbn [eval mbind option_bind].
  destruct d as [s | f | b | p | r | fields | dist doc | l]; cbn [getField];
    try reflexivity.
  - cbn. destruct (String.eqb (Name r) name); reflexivity.
  - destruct (fieldOf "name" (VObj fields)) as [[s | f | b | p | r | fs | dd dc | l] |];
      cbn; try reflexivity.
    destruct (String.eqb s name); reflexivity.
Qed.

Lemma eval_getNearest_query (st : Store) :
  eval nearest st None None getNearest_query = VSeq <$> modeBHits nearest st.
Proof.
  unfold getNearest_query, modeBHits; simpl.
  destruct (lookupTable st "test" tableName) as [t |]; simpl; [| reflexivity].
  destruct (indexes t !! indexName) as [ix |]; simpl; [| reflexivity].
  destruct (Geo ix); simpl; [| reflexivity].
  rewrite project_docs. reflexivity.
Qed.

Lemma eval_Filter (st : Store) (var row : option Datum) (seq pred : Term) :
  eval nearest st var row (Filter seq pred) =
    v ← eval nearest st var row seq;
    match v with
    | VSeq l =>
        Some (VSeq (List.filter (fun d => keeps (eval nearest st var (Some d) pred)) l))
    | _ => None
    end.
Proof. reflexivity. Qed.

Lemma eval_getNearestByName_query (st : Store) (name : string) :
  eval nearest st None None (getNearestByName_query name) =
    (fun ds => VSeq (List.filter (nameIs name) ds)) <$> modeBHits nearest st.
Proof.
  change (getNearestByName_query name)
    with (Filter getNearest_query (Eq (Field Row "name") (Str name))).
  rewrite eval_Filter, eval_getNearest_query.
  destruct (modeBHits nearest st) as [ds |]; [| reflexivity].
  cbn [fmap option_fmap option_map mbind option_bind].
  f_equal. f_equal. apply List.filter_ext. intros d. apply name_filter_on_row.
Qed.

(** What a record query prints against the store, given the sequence its term
    evaluates to: what the decoder makes of the elements, up to the first one
    it refuses. *)
Lemma printed_record_query (st : Store) (header : string) (query : Term)
    (session : Session) (hits : option (list Datum)) :
  eval nearest st None None query = VSeq <$> hits ->
  printed (trace (run (storeEnv nearest render decoder)
                    (queryOp header query AllRecord PtrRecord session) st)) =
    map PtrRecord (default [] ((fun ds => (decodeAll (decodeRecord decoder) ds).1) <$> hits)).
Proof.
  intros Heval.
  destruct (run_queryOp (storeEnv nearest render decoder) header query AllRecord PtrRecord
              session st) as (answers & s' & Hrun & Hlen).
  rewrite Hrun. unfold trace; cbn [fst snd].
  rewrite printed_queryObs by (first [exact Hlen | reflexivity]).
  change (answer (storeEnv nearest render decoder) (Run query session)
            (after (storeEnv nearest render decoder) (FmtPrintln header) st))
    with (match eval nearest st None None query with
          | Some v => ((Some v, None), st)
          | None => ((None, Some "gorethink: the query failed"), st)
          end).1.
  rewrite Heval. destruct hits as [ds |]; simpl; reflexivity.
Qed.

(** What the modes print against the store is what the decoder makes of the
    primitive's answer, in its order: Mode A of the hits with their
    distances, Mode B of the bare documents of the hits.  Which documents are
    hits, at which distance and in which order, is the primitive's. *)
Lemma printed_getNearest (st : Store) (session : Session) :
  printed (trace (run (storeEnv nearest render decoder) (getNearest session) st)) =
    map PtrRecord
      (default [] ((fun ds => (decodeAll (decodeRecord decoder) ds).1)
                     <$> modeBHits nearest st)).
Proof.
  rewrite getNearest_queryOp.
  apply printed_record_query, eval_getNearest_query.
Qed.

Lemma printed_getNearestByName (st : Store) (session : Session) (name : string) :
  printed (trace (run (storeEnv nearest render decoder) (getNearestByName name session) st)) =
    map PtrRecord
      (default [] ((fun ds => (decodeAll (decodeRecord decoder)
                                 (List.filter (nameIs name) ds)).1)
                     <$> modeBHits nearest st)).
Proof.
  rewrite getNearestByName_queryOp.
  rewrite (printed_record_query st _ _ session
             (List.filter (nameIs name) <$> modeBHits nearest st)).
  - destruct (modeBHits nearest st); reflexivity.
  - rewrite eval_getNearestByName_query.
    destruct (modeBHits nearest st); reflexivity.
Qed.

Lemma eval_getNearestWithDistances_query (st : Store) :
  eval nearest st None None getNearestWithDistances_query =
    (fun hits => VSeq (map (fun hit => VNear hit.1 hit.2) hits)) <$> modeAHits nearest st.
Proof.
  unfold getNearestWithDistances_query, modeAHits; simpl.
  destruct (lookupTable st "test" tableName) as [t |]; simpl; [| reflexivity].
  destruct (indexes t !! indexName) as [ix |]; simpl; [| reflexivity].
  destruct (Geo ix); reflexivity.
Qed.

Lemma printed_getNearestWithDistances (st : Store) (session : Session) :
  printed (trace (run (storeEnv nearest render decoder) (getNearestWithDistances session) st)) =
    map PtrRecordWithDistance
      (default []
         ((fun hits => (decodeAll (decodeRecordWithDistance decoder)
                          (map (fun hit => VNear hit.1 hit.2) hits)).1)
            <$> modeAHits nearest st)).
Proof.
  rewrite getNearestWithDistances_queryOp.
  destruct (run_queryOp (storeEnv nearest render decoder) "Get nearest records with distances"
              getNearestWithDistances_query AllWithDistance PtrRecordWithDistance
              session st) as (answers & s' & Hrun & Hlen).
  rewrite Hrun. unfold trace; cbn [fst snd].
  rewrite printed_queryObs by (first [exact Hlen | reflexivity]).
  change (answer (storeEnv nearest render decoder) (Run getNearestWithDistances_query session)
            (after (storeEnv nearest render decoder)
               (FmtPrintln "Get nearest records with distances") st))
    with (match eval nearest st None None getNearestWithDistances_query with
          | Some v => ((Some v, None), st)
          | None => ((None, Some "gorethink: the query failed"), st)
          end).1.
  rewrite eval_getNearestWithDistances_query.
  destruct (modeAHits nearest st) as [hits |]; simpl; reflexivity.
Qed.

(** On complete Records the decoder has no say, and the filter of Mode C
    reads the name the decoded record has. *)
Lemma complete_recordOf (d : Datum) :
  complete d = true -> exists r, recordOf d = Some r.
Proof.
  unfold complete. destruct (recordOf d) as [r |]; [eauto | discriminate].
Qed.

Lemma nameIs_recordOf (name : string) (d : Datum) (r : Record_) :
  recordOf d = Some r -> nameIs name d = String.eqb (Name r) name.
Proof.
  unfold nameIs. destruct d as [s | f | b | p | r0 | fields | dist doc | l];
    simpl; try discriminate.
  - intros [= ->]. reflexivity.
  - destruct (fieldIn "name" fields) as [[n | | | | | | |] |]; try discriminate.
    destruct (fieldIn "area" fields) as [[| | | p | | | |] |]; try discriminate.
    intros [= <-]. reflexivity.
Qed.

Lemma decodeRecord_recordOf (d : Datum) (r : Record_) :
  recordOf d = Some r -> decodeRecord decoder d = Some (Some r).
Proof. intros H. unfold decodeRecord. rewrite H. reflexivity. Qed.

Lemma decodeAll_complete (ds : list Datum) :
  forallb complete ds = true ->
  decodeAll (decodeRecord decoder) ds = (map Some (omap recordOf ds), None).
Proof.
  induction ds as [| d ds IH]; [reflexivity |].
  cbn [forallb]. intros [Hd Hds]%andb_prop.
  destruct (complete_recordOf d Hd) as [r Hr].
  cbn [decodeAll omap list_omap]. rewrite (decodeRecord_recordOf d r Hr), Hr, (IH Hds).
  reflexivity.
Qed.

Lemma filter_complete (name : string) (ds : list Datum) :
  forallb complete ds = true ->
  forallb complete (List.filter (nameIs name) ds) = true /\
  omap recordOf (List.filter (nameIs name) ds) =
    List.filter (fun r => String.eqb (Name r) name) (omap recordOf ds).
Proof.
  induction ds as [| d ds IH]; [split; reflexivity |].
  cbn [forallb]. intros [Hd Hds]%andb_prop.
  destruct (IH Hds) as [IH1 IH2].
  destruct (complete_recordOf d Hd) as [r Hr].
  cbn [List.filter omap list_omap]. rewrite (nameIs_recordOf name d r Hr), Hr.
  cbn [List.filter].
  destruct (String.eqb (Name r) name).
  - cbn [forallb omap list_omap]. rewrite Hd, Hr, IH1, IH2. split; reflexivity.
  - split; assumption.
Qed.

Lemma filter_hasName (name : string) (rs : list Record_) :
  map PtrRecord (map Some (List.filter (fun r => String.eqb (Name r) name) rs)) =
  List.filter (hasName name) (map PtrRecord (map Some rs)).
Proof.
  induction rs as [| r rs IH]; [reflexivity |].
  cbn [map List.filter hasName].
  destruct (String.eqb (Name r) name); cbn [map]; rewrite IH; reflexivity.
Qed.

(** C9 (as amended). Mode C refines Mode B on the stores whose matched
    documents are all complete Records.  The term [getNearestByName] sends is
    the term [getNearest] sends (same table, reference point, index, 100
    miles, 1024 results, projection to [doc]) under one filter, the equality
    of the field "name" with the argument.  And for every store in which every
    document the Mode B query matches is a complete Record (a string [name]
    and a point [area]), for every name and whatever the decoder does with
    other values, what [getNearestByName] prints is what [getNearest] prints
    on the same store, restricted to the records of that name, in the same
    order. *)
Theorem getNearestByName_refines_getNearest :
  forall (st : Store) (session : Session) (name : string),
    getNearestByName_query name =
      Filter getNearest_query (Eq (Field Row "name") (Str name)) /\
    (forallb complete (default [] (modeBHits nearest st)) = true ->
     printed (trace (run (storeEnv nearest render decoder)
                       (getNearestByName name session) st)) =
       List.filter (hasName name)
         (printed (trace (run (storeEnv nearest render decoder) (getNearest session) st)))).
Proof.
  intros st session name. split; [reflexivity |]. intros Hall.
  rewrite printed_getNearestByName, printed_getNearest.
  destruct (modeBHits nearest st) as [ds |]; [| reflexivity].
  change (forallb complete ds = true) in Hall.
  change (map PtrRecord (decodeAll (decodeRecord decoder) (List.filter (nameIs name) ds)).1 =
          List.filter (hasName name)
            (map PtrRecord (decodeAll (decodeRecord decoder) ds).1)).
  destruct (filter_complete name ds Hall) as [Hfiltered Hrecords].
  rewrite (decodeAll_complete _ Hfiltered), (decodeAll_complete _ Hall), Hrecords.
  cbn [fst]. apply filter_hasName.
Qed.

End Refinement.

(** C9 (as stated) fails on a table that holds a document without a name.
    Mode B matches it and the decoder leaves the name of the row empty; Mode
    C with the empty name finds no field to compare, so the filter drops the
    row: Mode C prints nothing, though Mode B printed a record whose name is
    the one asked for. *)
Lemma getNearestByName_misses_nameless_document :
  printed (trace (run (storeEnv flatNearest noRender zeroFill)
                    (getNearest (Some 1%nat)) namelessStore)) =
    [PtrRecord (Some {| Name := ""; GeoSpatial := refPoint |})] /\
  List.filter (hasName "")
    (printed (trace (run (storeEnv flatNearest noRender zeroFill)
                       (getNearest (Some 1%nat)) namelessStore))) =
    [PtrRecord (Some {| Name := ""; GeoSpatial := refPoint |})] /\
  printed (trace (run (storeEnv flatNearest noRender zeroFill)
                    (getNearestByName "" (Some 1%nat)) namelessStore)) = [].
Proof. repeat split. Qed.

(** The seeded store, every document a hit, the name "first". *)
Lemma getNearestByName_refines_getNearest_witness :
  printed (trace (run (storeEnv flatNearest noRender zeroFill)
                    (getNearestByName "first" (Some 1%nat)) seededStore)) =
    List.filter (hasName "first")
      (printed (trace (run (storeEnv flatNearest noRender zeroFill)
                         (getNearest (Some 1%nat)) seededStore))).
Proof.
  apply (proj2 (getNearestByName_refines_getNearest flatNearest noRender zeroFill
                  seededStore (Some 1%nat) "first")).
  reflexivity.
Defined.

(** On the seeded store, with every document a hit: Mode B prints the five
    records, Mode C the one named "first". *)
Example getNearestByName_first_on_seeded_store :
  printed (trace (run (storeEnv flatNearest noRender zeroFill)
                    (getNearestByName "first" (Some 1%nat)) seededStore)) =
    [PtrRecord (Some {| Name := "first";
                        GeoSpatial := {| Lon := (-122.423246)%float;
                                         Lat := 37.77929790366427%float |} |})] /\
  printed (trace (run (storeEnv flatNearest noRender zeroFill) (getNearest (Some 1%nat)) seededStore)) =
    map (fun r => PtrRecord (Some r)) records.
Proof. split; reflexivity. Qed.

(** A whole run of [main] on a store in use: it completes, and leaves the
    fresh table with the five seed records. *)
Example main_on_used_store :
  outcome (run (storeEnv flatNearest noRender zeroFill) main usedStore) = Returned tt /\
  final (run (storeEnv flatNearest noRender zeroFill) main usedStore) = seededStore.
Proof. split; vm_compute; reflexivity. Qed.

(** A refused connection: nothing but the call and the exit. *)
Example main_connection_refused :
  run (scripted connectFails) main tt =
    (Exited,
     [Call (Connect {| Address := "127.0.0.1" |})
        (None, Some "dial tcp 127.0.0.1:28015: connection refused");
      Fatal [AStr "Cannot connect: ";
             AErr "dial tcp 127.0.0.1:28015: connection refused"]],
     tt).
Proof. reflexivity. Qed.

(** A refused index creation: the exit follows it, no record is inserted. *)
Example main_index_creation_refused :
  run (scripted indexCreateFails) main tt =
    (Exited,
     [Call (Connect {| Address := "127.0.0.1" |}) (Some 1%nat, None);
      Call (FmtPrintln "create table and index") tt;
      Call (Exec dropTerm (Some 1%nat)) None;
      Call (Exec createTerm (Some 1%nat)) None;
      Call (Exec indexTerm (Some 1%nat)) (Some "Index `area` already exists.");
      Fatal [AStr "Cannot create index: "; AErr "Index `area` already exists."]],
     tt).
Proof. reflexivity. Qed.

(** Every recoverable failure at once (drop, queries) and still a complete
    run. *)
Example main_survives_query_failures :
  outcome (run (scripted runFails) main tt) = Returned tt /\
  logged (trace (run (scripted runFails) main tt)) =
    [[AErr "Table `test.geospatial` does not exist."];
     [AErr "Table `test.geospatial` does not exist."];
     [AErr "Table `test.geospatial` does not exist."]].
Proof. split; reflexivity. Qed.

(** ** Classes of calls *)

Lemma run_Emits (env : Env) {R : Type} (P : forall X : Type, Event X -> bool)
    (p : Prog R) :
  Emits P p -> forall s, Forall (fun o => obsIn P o = true) (trace (run env p s)).
Proof.
  induction 1 as [r | X e k He Hk IH | args | msg]; intros s; simpl.
  - constructor.
  - destruct (respond env X e s) as [x s1]. specialize (IH x s1).
    destruct (run env (k x) s1) as [[o tr] s2]. unfold trace in *; simpl in *.
    constructor; [exact He | exact IH].
  - repeat constructor.
  - constructor.
Qed.

Lemma Emits_bind {A B : Type} (P : forall X : Type, Event X -> bool)
    (m : Prog A) (f : A -> Prog B) :
  Emits P m -> (forall a, Emits P (f a)) -> Emits P (m ≫= f).
Proof.
  intros Hm Hf. unfold mbind, Prog_bind.
  induction Hm as [a | X e k He Hk IH | args | msg]; simpl.
  - apply Hf.
  - constructor; [exact He | exact IH].
  - constructor.
  - constructor.
Qed.

Lemma Emits_call {X : Type} (P : forall X : Type, Event X -> bool) (e : Event X) :
  P X e = true -> Emits P (call e).
Proof. intros He. constructor; [exact He | intros x; constructor]. Qed.

Lemma Emits_forEach {A : Type} (P : forall X : Type, Event X -> bool)
    (xs : list A) (body : A -> Prog unit) :
  (forall x, Emits P (body x)) -> Emits P (forEach xs body).
Proof.
  intros Hbody. induction xs as [| x xs IH]; simpl.
  - constructor.
  - apply Emits_bind; [apply Hbody | intros _; exact IH].
Qed.

Lemma Emits_printRows {A : Type} (P : forall X : Type, Event X -> bool)
    (inj : A -> Value) (rows : list A) :
  (forall v pre indent, P _ (MarshalIndent v pre indent) = true) ->
  (forall args, P _ (LogPrintln args) = true) ->
  Emits P (printRows inj rows).
Proof.
  intros Hm Hl. rewrite printRows_forEach. apply Emits_forEach.
  intros v. unfold printStructAsJSON.
  apply Emits_bind; [apply Emits_call, Hm |].
  intros [b err]. apply Emits_call, Hl.
Qed.

Ltac emits :=
  repeat first
    [ apply Emits_printRows; intros; reflexivity
    | apply Emits_call; first [reflexivity | apply bool_decide_eq_true_2; reflexivity]
    | apply Emits_Ret
    | apply Emits_Exit
    | apply Emits_forEach
    | apply Emits_bind
    | intros ?
    | match goal with
      | |- Emits _ (match ?x with _ => _ end) => destruct x
      end ].

Lemma Emits_queryOp {A : Type} (P : forall X : Type, Event X -> bool)
    (header : string) (query : Term)
    (all : Cursor -> list A -> Event (list A * option error)) (inj : A -> Value)
    (session : Session) :
  (forall line, P _ (FmtPrintln line) = true) ->
  (forall args, P _ (LogPrintln args) = true) ->
  (forall v pre indent, P _ (MarshalIndent v pre indent) = true) ->
  P _ (Run query session) = true ->
  (forall c rows, P _ (all c rows) = true) ->
  Emits P (queryOp header query all inj session).
Proof.
  intros Hp Hl Hm Hr Ha. unfold queryOp.
  repeat first
    [ apply Emits_printRows; assumption
    | apply Emits_call; first [apply Hp | apply Hl | exact Hr | apply Ha]
    | apply Emits_Ret
    | apply Emits_bind
    | intros ?
    | match goal with
      | |- Emits _ (match ?x with _ => _ end) => destruct x
      end ].
Qed.

Lemma Emits_onSession_after_connect (session : Session) (err : option error) :
  Emits (onSession session)
    (match err with
     | Some e => log_Fatalln [AStr "Cannot connect: "; AErr e]
     | None => Ret tt
     end ;;
     createTable session ;; afterSetup session).
Proof.
  assert (Hb : bool_decide (session = session) = true)
    by (apply bool_decide_eq_true_2; reflexivity).
  apply Emits_bind; [destruct err; constructor |]. intros _.
  apply Emits_bind.
  { unfold createTable, log_Fatalln. emits. }
  intros _. unfold afterSetup.
  rewrite getNearestWithDistances_queryOp, getNearest_queryOp, getNearestByName_queryOp.
  unfold insertRecords, insertRecord.
  repeat first
    [ apply Emits_queryOp; intros; first [reflexivity | exact Hb]
    | apply Emits_call; first [reflexivity | exact Hb]
    | apply Emits_Ret
    | apply Emits_forEach
    | apply Emits_bind
    | intros ?
    | match goal with
      | |- Emits _ (match ?x with _ => _ end) => destruct x
      end ].
Qed.

(** ** One connection, one session *)

(** X1. In every run, [main] connects exactly once, as its first call and to
    127.0.0.1, and every term it sends afterwards (schema changes, inserts,
    queries) is run on the session that this connection answered. *)
Theorem main_uses_the_connected_session :
  forall (env : Env) (s : St env),
  exists rest : list Obs,
    trace (run env main s) =
      Call (Connect {| Address := "127.0.0.1" |})
           (answer env (Connect {| Address := "127.0.0.1" |}) s) :: rest /\
    Forall (fun o => obsIn (onSession (answer env (Connect {| Address := "127.0.0.1" |}) s).1) o
                     = true) rest.
Proof.
  intros env s. unfold main. rewrite run_call_bind.
  eexists. split; [reflexivity |].
  destruct (answer env (Connect {| Address := "127.0.0.1" |}) s) as [session err].
  cbn [fst]. apply run_Emits.
  apply (Emits_onSession_after_connect session err).
Qed.

(** ** The pipeline of [main] *)

Lemma harmless_returns (env : Env) (p : Prog unit) (s : St env) :
  Harmless p -> outcome (run env p s) = Returned tt.
Proof.
  intros H. destruct (run_harmless env p H s) as ([] & tr & s' & Hrun & _).
  rewrite Hrun. reflexivity.
Qed.

Lemma run_seq (env : Env) (op next : Prog unit) (s : St env) :
  outcome (run env op s) = Returned tt ->
  run env (op ;; next) s =
    (outcome (run env next (final (run env op s))),
     trace (run env op s) ++ trace (run env next (final (run env op s))),
     final (run env next (final (run env op s)))).
Proof.
  intros H. destruct (run env op s) as [[o tr] s1] eqn:Hop.
  unfold outcome in H; simpl in H. subst o.
  rewrite (run_bind_returned env _ _ _ _ _ _ Hop). reflexivity.
Qed.

Lemma run_call_seq (env : Env) (e : Event unit) (next : Prog unit) (s : St env) :
  run env (call e ;; next) s =
    (outcome (run env next (after env e s)),
     Call e tt :: trace (run env next (after env e s)),
     final (run env next (after env e s))).
Proof. rewrite run_call_bind, (unit_tt (answer env e s)). reflexivity. Qed.

(** The steps after Schema Setup all run, each from the state the one before
    leaves. *)
Lemma run_afterSetup (env : Env) (session : Session) (s : St env) :
  exists s1 s2 s3 s4,
    outcome (run env (afterSetup session) s) = Returned tt /\
    trace (run env (afterSetup session) s) =
      Call (Sleep (1 * second)) tt :: trace (run env (insertRecords session) s1) ++
      Call (Sleep (1 * second)) tt :: trace (run env (getNearestWithDistances session) s2) ++
      Call (Sleep (1 * second)) tt :: trace (run env (getNearest session) s3) ++
      Call (Sleep (1 * second)) tt :: trace (run env (getNearestByName "first" session) s4) /\
    final (run env (afterSetup session) s) =
      final (run env (getNearestByName "first" session) s4) /\
    s1 = after env (Sleep (1 * second)) s /\
    s2 = after env (Sleep (1 * second)) (final (run env (insertRecords session) s1)) /\
    s3 = after env (Sleep (1 * second))
           (final (run env (getNearestWithDistances session) s2)) /\
    s4 = after env (Sleep (1 * second)) (final (run env (getNearest session) s3)).
Proof.
  eexists _, _, _, _. unfold afterSetup.
  rewrite run_call_seq.
  rewrite (run_seq env (insertRecords session))
    by apply harmless_returns, Harmless_insertRecords.
  rewrite run_call_seq.
  rewrite (run_seq env (getNearestWithDistances session))
    by apply harmless_returns, Harmless_getNearestWithDistances.
  rewrite run_call_seq.
  rewrite (run_seq env (getNearest session))
    by apply harmless_returns, Harmless_getNearest.
  rewrite run_call_seq.
  unfold outcome, trace, final; cbn [fst snd].
  split; [apply (harmless_returns env _ _ (Harmless_getNearestByName "first" session)) |].
  split; [reflexivity |].
  split; [reflexivity |].
  repeat split.
Qed.

(** The four ways a run of [main] can go. *)
Lemma run_main_cases (env : Env) (s : St env) :
  let connect := Connect {| Address := "127.0.0.1" |} in
  (exists session e s1,
      run env main s =
        (Exited, [Call connect (session, Some e);
                  Fatal [AStr "Cannot connect: "; AErr e]], s1)) \/
  (exists session dropAns e s1,
      run env main s =
        (Exited,
         Call connect (session, None) :: createTableObs session dropAns (Some e) None, s1)) \/
  (exists session dropAns e s1,
      run env main s =
        (Exited,
         Call connect (session, None) :: createTableObs session dropAns None (Some e), s1)) \/
  (exists session dropAns s1,
      run env main s =
        (Returned tt,
         Call connect (session, None) :: createTableObs session dropAns None None ++
         trace (run env (afterSetup session) s1),
         final (run env (afterSetup session) s1))).
Proof.
  intros connect. unfold main. rewrite run_call_bind. fold connect.
  set (s1 := after env connect s).
  destruct (answer env connect s) as [session [e |]] eqn:Hc.
  - left. exists session, e, s1. rewrite run_Exit_bind. reflexivity.
  - right. rewrite bind_Ret.
    change (createTable session ≫= _) with (createTable session ;; afterSetup session).
    destruct (run_createTable env s1 session) as (da & ca & ia & s2 & Hct).
    rewrite run_bind, Hct.
    destruct ca as [e |]; [| destruct ia as [e |]];
      cbv beta iota delta [createTableOutcome].
    + left. exists session, da, e, s2. reflexivity.
    + right; left. exists session, da, e, s2. reflexivity.
    + right; right. exists session, da, s2.
      destruct (run_afterSetup env session s2) as (? & ? & ? & ? & Hout & _).
      destruct (run env (afterSetup session) s2) as [[o tr] s3].
      unfold outcome in Hout; simpl in Hout. subst o. reflexivity.
Qed.

(** ** Projections of the traces *)

Lemma omap_cons_some {C : Type} (f : Obs -> option C) (o : Obs) (tr : list Obs) (c : C) :
  f o = Some c -> omap f (o :: tr) = c :: omap f tr.
Proof. intros H. simpl. rewrite H. reflexivity. Qed.

Lemma omap_cons_none {C : Type} (f : Obs -> option C) (o : Obs) (tr : list Obs) :
  f o = None -> omap f (o :: tr) = omap f tr.
Proof. intros H. simpl. rewrite H. reflexivity. Qed.

Ltac project :=
  repeat first
    [ rewrite omap_app
    | rewrite omap_cons_none by reflexivity
    | erewrite omap_cons_some by reflexivity ].

Lemma omap_concat_zip_nil {A B C : Type} (f : Obs -> option C) (g : A -> B -> list Obs) :
  (forall a b, omap f (g a b) = []) ->
  forall xs ys, omap f (concat (zip_with g xs ys)) = [].
Proof.
  intros Hg xs. induction xs as [| x xs IH]; intros [| y ys]; simpl; try reflexivity.
  rewrite omap_app, Hg, IH. reflexivity.
Qed.

Lemma run_insertRecords (env : Env) (session : Session) (s : St env) :
  exists answers s',
    length answers = length records /\
    run env (insertRecords session) s =
      (Returned tt,
       Call (FmtPrintln "insert records") tt ::
       concat (zip_with (insertObs session) records answers) ++
       [Call (FmtPrintln "") tt], s').
Proof.
  destruct (run_forEach env (insertRecord session) (insertObs session)
              (fun x s0 => run_insertRecord env session x s0) records
              (after env (FmtPrintln "insert records") s))
    as (answers & s2 & Hlen & Hloop).
  exists answers, (after env (FmtPrintln "") s2). split; [exact Hlen |].
  unfold insertRecords.
  eapply run_call_bind_ans; [apply unit_tt |].
  eapply run_bind_eq; [exact Hloop |].
  apply run_call_ans, unit_tt.
Qed.

(** A reading that sees neither the writes nor the log sees of the Record
    Loader its two lines only. *)
Lemma omap_insertRecords (env : Env) {C : Type} (f : Obs -> option C)
    (session : Session) (s : St env) :
  (forall t x, f (Call (RunWrite t session) x) = None) ->
  (forall args, f (Call (LogPrintln args) tt) = None) ->
  omap f (trace (run env (insertRecords session) s)) =
    omap f [Call (FmtPrintln "insert records") tt; Call (FmtPrintln "") tt].
Proof.
  intros Hw Hl.
  destruct (run_insertRecords env session s) as (answers & s' & _ & Hrun).
  rewrite Hrun. unfold trace; cbn [fst snd].
  change (omap f (Call (FmtPrintln "insert records") tt ::
                  concat (zip_with (insertObs session) records answers) ++
                  [Call (FmtPrintln "") tt]))
    with (omap f ([Call (FmtPrintln "insert records") tt] ++
                  concat (zip_with (insertObs session) records answers) ++
                  [Call (FmtPrintln "") tt])).
  rewrite !omap_app, omap_concat_zip_nil;
    [rewrite app_nil_l, <- omap_app; reflexivity |].
  intros r [w [e |]]; unfold insertObs; cbn [snd].
  - rewrite omap_cons_none by apply Hw. rewrite omap_cons_none by apply Hl. reflexivity.
  - rewrite omap_cons_none by apply Hw. reflexivity.
Qed.

Lemma inserted_insertObs (session : Session) (rs : list Record_)
    (answers : list (WriteResponse * option error)) :
  length answers = length rs ->
  inserted (concat (zip_with (insertObs session) rs answers)) = rs.
Proof.
  revert answers. induction rs as [| r rs IH]; intros [| [w err] answers] Hlen;
    simpl in Hlen; try discriminate; [reflexivity |].
  cbn [zip_with concat]. unfold inserted in *. rewrite omap_app, IH by congruence.
  unfold insertObs; cbn [snd]. destruct err; reflexivity.
Qed.

Lemma inserted_insertRecords (env : Env) (session : Session) (s : St env) :
  inserted (trace (run env (insertRecords session) s)) = records.
Proof.
  destruct (run_insertRecords env session s) as (answers & s' & Hlen & Hrun).
  rewrite Hrun. unfold trace; cbn [fst snd]. unfold inserted.
  rewrite omap_cons_none by reflexivity. rewrite omap_app.
  fold (inserted (concat (zip_with (insertObs session) records answers))).
  rewrite inserted_insertObs by exact Hlen. apply app_nil_r.
Qed.

(** A reading that sees neither [All], nor the encoder, nor the log sees of a
    query function its two lines and its [Run]. *)
Lemma omap_queryOp (env : Env) {A C : Type} (f : Obs -> option C) (header : string)
    (query : Term) (all : Cursor -> list A -> Event (list A * option error))
    (inj : A -> Value) (session : Session) (s : St env) :
  (forall c rows x, f (Call (all c rows) x) = None) ->
  (forall v pre indent x, f (Call (MarshalIndent v pre indent) x) = None) ->
  (forall args, f (Call (LogPrintln args) tt) = None) ->
  exists runAns,
    omap f (trace (run env (queryOp header query all inj session) s)) =
      omap f [Call (FmtPrintln header) tt; Call (Run query session) runAns;
              Call (FmtPrintln "") tt].
Proof.
  intros Ha Hm Hl.
  destruct (run_queryOp env header query all inj session s) as (answers & s' & Hrun & _).
  rewrite Hrun. unfold trace; cbn [fst snd]. unfold queryObs.
  exists (answer env (Run query session) (after env (FmtPrintln header) s)).
  assert (Hprints : forall vs answers0,
             omap f (concat (zip_with printObs vs answers0)) = []).
  { apply omap_concat_zip_nil. intros v ans. unfold printObs.
    rewrite omap_cons_none by apply Hm. rewrite omap_cons_none by apply Hl. reflexivity. }
  destruct (answer env (Run query session) (after env (FmtPrintln header) s))
    as [res [e |]]; cbn [fst snd].
  - simpl. rewrite (Hl [AErr e]). reflexivity.
  - match goal with
    | |- context [Call (all res []) ?x] => destruct x as [rows [e |]]
    end; cbn [fst snd]; simpl; rewrite Ha, ?Hl, ?omap_app, Hprints; reflexivity.
Qed.

Lemma steps_queryOp (env : Env) {A : Type} (header : string) (query : Term)
    (all : Cursor -> list A -> Event (list A * option error)) (inj : A -> Value)
    (session : Session) (s : St env) :
  (forall c rows x, stepOf (Call (all c rows) x) = None) ->
  steps (trace (run env (queryOp header query all inj session) s)) =
    [Printed header; Printed ""].
Proof.
  intros Ha.
  destruct (omap_queryOp env stepOf header query all inj session s Ha) as (r & H);
    [reflexivity | reflexivity |].
  unfold steps. rewrite H. reflexivity.
Qed.

Lemma queried_queryOp (env : Env) {A : Type} (header : string) (query : Term)
    (all : Cursor -> list A -> Event (list A * option error)) (inj : A -> Value)
    (session : Session) (s : St env) :
  (forall c rows x, queriedBy (Call (all c rows) x) = None) ->
  queried (trace (run env (queryOp header query all inj session) s)) = [query].
Proof.
  intros Ha.
  destruct (omap_queryOp env queriedBy header query all inj session s Ha) as (r & H);
    [reflexivity | reflexivity |].
  unfold queried. rewrite H. reflexivity.
Qed.

Lemma inserted_queryOp (env : Env) {A : Type} (header : string) (query : Term)
    (all : Cursor -> list A -> Event (list A * option error)) (inj : A -> Value)
    (session : Session) (s : St env) :
  (forall c rows x, insertedBy (Call (all c rows) x) = None) ->
  inserted (trace (run env (queryOp header query all inj session) s)) = [].
Proof.
  intros Ha.
  destruct (omap_queryOp env insertedBy header query all inj session s Ha) as (r & H);
    [reflexivity | reflexivity |].
  unfold inserted. rewrite H. reflexivity.
Qed.

Lemma trace_triple {R S : Type} (o : Outcome R) (tr : list Obs) (st : S) :
  trace (o, tr, st) = tr.
Proof. reflexivity. Qed.

(** X2. In every run of [main] that is not ended by [log.Fatalln], the lines
    written to standard output and the pauses are the same fourteen, in the
    same order: each of the five steps runs exactly once, with a pause of one
    second between two steps, whatever failed inside the loader or the
    queries. *)
Theorem main_steps_in_order :
  forall (env : Env) (s : St env),
    outcome (run env main s) = Returned tt ->
    steps (trace (run env main s)) =
      [Printed "create table and index"; Printed "";
       Slept (1 * second);
       Printed "insert records"; Printed "";
       Slept (1 * second);
       Printed "Get nearest records with distances"; Printed "";
       Slept (1 * second);
       Printed "Get just the nearest records"; Printed "";
       Slept (1 * second);
       Printed "Chain some additional filters"; Printed ""].
Proof.
  intros env s Hout.
  destruct (run_main_cases env s)
    as [(? & ? & ? & H) | [(? & ? & ? & ? & H) | [(? & ? & ? & ? & H)
       | (session & da & s1 & H)]]];
    rewrite H in Hout |- *; try discriminate Hout.
  rewrite trace_triple.
  destruct (run_afterSetup env session s1) as (s2 & s3 & s4 & s5 & _ & Htr & _).
  rewrite Htr. unfold steps.
  rewrite app_comm_cons, omap_app.
  project.
  rewrite (omap_insertRecords env stepOf session s2) by reflexivity.
  rewrite getNearestWithDistances_queryOp, getNearest_queryOp, getNearestByName_queryOp.
  repeat match goal with
         | |- context [omap stepOf (trace ?r)] =>
             change (omap stepOf (trace r)) with (steps (trace r))
         end.
  rewrite !steps_queryOp by reflexivity.
  reflexivity.
Qed.

(** All three queries are refused, and the steps are still all there. *)
Lemma main_steps_in_order_witness :
  steps (trace (run (scripted runFails) main tt)) =
    [Printed "create table and index"; Printed "";
     Slept (1 * second);
     Printed "insert records"; Printed "";
     Slept (1 * second);
     Printed "Get nearest records with distances"; Printed "";
     Slept (1 * second);
     Printed "Get just the nearest records"; Printed "";
     Slept (1 * second);
     Printed "Chain some additional filters"; Printed ""].
Proof.
  apply (main_steps_in_order (scripted runFails) tt). reflexivity.
Defined.

(** X3. In every run of [main] that is not ended by [log.Fatalln], the documents
    sent for insertion are the five seed records in list order, each once,
    and the terms sent with [Run] are the three queries, each once, in the
    order Mode A, Mode B, Mode C with the name "first": a failed insert or a
    failed query changes nothing in what is attempted next. *)
Theorem main_inserts_then_queries :
  forall (env : Env) (s : St env),
    outcome (run env main s) = Returned tt ->
    inserted (trace (run env main s)) = records /\
    queried (trace (run env main s)) =
      [getNearestWithDistances_query; getNearest_query; getNearestByName_query "first"].
Proof.
  intros env s Hout.
  destruct (run_main_cases env s)
    as [(? & ? & ? & H) | [(? & ? & ? & ? & H) | [(? & ? & ? & ? & H)
       | (session & da & s1 & H)]]];
    rewrite H in Hout |- *; try discriminate Hout.
  rewrite trace_triple.
  destruct (run_afterSetup env session s1) as (s2 & s3 & s4 & s5 & _ & Htr & _).
  rewrite Htr.
  rewrite getNearestWithDistances_queryOp, getNearest_queryOp, getNearestByName_queryOp.
  split.
  - unfold inserted. rewrite app_comm_cons, omap_app. project.
    repeat match goal with
           | |- context [omap insertedBy (trace ?r)] =>
               change (omap insertedBy (trace r)) with (inserted (trace r))
           end.
    rewrite (inserted_insertRecords env session s2).
    rewrite !inserted_queryOp by reflexivity.
    rewrite !app_nil_r. reflexivity.
  - unfold queried. rewrite app_comm_cons, omap_app. project.
    rewrite (omap_insertRecords env queriedBy session s2) by reflexivity.
    repeat match goal with
           | |- context [omap queriedBy (trace ?r)] =>
               change (omap queriedBy (trace r)) with (queried (trace r))
           end.
    rewrite !queried_queryOp by reflexivity.
    reflexivity.
Qed.

(** The second insert is refused: all five are still sent, and the three
    queries follow. *)
Lemma main_inserts_then_queries_witness :
  inserted (trace (run (scripted secondInsertFails) main tt)) = records /\
  queried (trace (run (scripted secondInsertFails) main tt)) =
    [getNearestWithDistances_query; getNearest_query; getNearestByName_query "first"].
Proof.
  apply (main_inserts_then_queries (scripted secondInsertFails) tt). reflexivity.
Defined.



(** ** Query functions: the successful path and what they never do *)

Lemma logged_prints (vs : list Value) (answers : list (list Byte.byte * option error)) :
  length answers = length vs ->
  logged (concat (zip_with printObs vs answers)) = map rowEntry answers.
Proof.
  revert answers. induction vs as [| v vs IH]; intros [| a answers] Hlen;
    simpl in Hlen; try discriminate; [reflexivity |].
  cbn [zip_with concat map]. unfold logged in *. rewrite omap_app, IH by congruence.
  reflexivity.
Qed.

Lemma queryOp_printsEveryRow (env : Env) (s : St env) {A : Type} (header : string)
    (query : Term) (all : Cursor -> list A -> Event (list A * option error))
    (inj : A -> Value) (session : Session) :
  (forall c rows x, printedBy (Call (all c rows) x) = None) ->
  (forall c rows x, loggedBy (Call (all c rows) x) = None) ->
  printsEveryRow env s (queryOp header query all inj session) header query all inj session.
Proof.
  intros Hp Hl.
  destruct (run_queryOp env header query all inj session s)
    as (answers & s' & Hrun & Hlen).
  unfold printsEveryRow. intros res rows Hans Hall.
  rewrite Hrun, trace_triple.
  rewrite Hans in Hlen |- *. cbn [fst snd] in Hlen |- *.
  rewrite Hall in Hlen |- *. cbn [fst snd] in Hlen.
  specialize (Hlen eq_refl).
  exists answers. split; [exact Hlen |]. split; [reflexivity |]. split.
  - rewrite printed_queryObs; [reflexivity | exact Hp | intros _; exact Hlen].
  - unfold queryObs; cbn [fst snd]. unfold logged.
    rewrite !omap_cons_none by (first [reflexivity | apply Hl]).
    rewrite app_nil_l, omap_app.
    fold (logged (concat (zip_with printObs (map inj rows) answers))).
    rewrite logged_prints by (rewrite length_map; exact Hlen).
    apply app_nil_r.
Qed.

(** X5. When [Run] and [All] both succeed, each of the three query functions
    prints every row of the answer exactly once, in the order of the slice,
    between its header and the closing empty line; the log holds one entry per
    row (the text the encoder gave for it) and no error entry. *)
Theorem query_functions_print_every_row :
  forall (env : Env) (s : St env) (session : Session) (name : string),
    printsEveryRow env s (getNearestWithDistances session)
      "Get nearest records with distances" getNearestWithDistances_query
      AllWithDistance PtrRecordWithDistance session /\
    printsEveryRow env s (getNearest session)
      "Get just the nearest records" getNearest_query AllRecord PtrRecord session /\
    printsEveryRow env s (getNearestByName name session)
      "Chain some additional filters" (getNearestByName_query name)
      AllRecord PtrRecord session.
Proof.
  intros env s session name.
  rewrite getNearestWithDistances_queryOp, getNearest_queryOp, getNearestByName_queryOp.
  split; [| split]; apply queryOp_printsEveryRow; reflexivity.
Qed.

(** Mode B on the seeded store, every document a hit: the five records are
    printed in order. *)
Lemma query_functions_print_every_row_witness :
  exists answers : list (list Byte.byte * option error),
    length answers = length (map Some records) /\
    trace (run (storeEnv flatNearest noRender zeroFill) (getNearest (Some 1%nat)) seededStore) =
      [Call (FmtPrintln "Get just the nearest records") tt;
       Call (Run getNearest_query (Some 1%nat)) (Some (VSeq (map VDoc records)), None);
       Call (AllRecord (Some (VSeq (map VDoc records))) []) (map Some records, None)] ++
      concat (zip_with printObs (map PtrRecord (map Some records)) answers) ++
      [Call (FmtPrintln "") tt] /\
    printed (trace (run (storeEnv flatNearest noRender zeroFill) (getNearest (Some 1%nat))
                      seededStore)) = map PtrRecord (map Some records) /\
    logged (trace (run (storeEnv flatNearest noRender zeroFill) (getNearest (Some 1%nat))
                     seededStore)) = map rowEntry answers.
Proof.
  destruct (query_functions_print_every_row (storeEnv flatNearest noRender zeroFill) seededStore
              (Some 1%nat) "first") as (_ & Hb & _).
  apply (Hb (Some (VSeq (map VDoc records))) (map Some records)); reflexivity.
Defined.

(** X6. Each of the three query functions, in every run, sends exactly one term
    with [Run], its own query, and makes no call that could change the store
    or open a connection: no [Connect], no [Exec], no [RunWrite]. *)
Theorem query_functions_only_read :
  forall (env : Env) (s : St env) (session : Session) (name : string),
    (queried (trace (run env (getNearestWithDistances session) s)) =
       [getNearestWithDistances_query] /\
     Forall (fun o => obsIn readOnlyEvent o = true)
       (trace (run env (getNearestWithDistances session) s))) /\
    (queried (trace (run env (getNearest session) s)) = [getNearest_query] /\
     Forall (fun o => obsIn readOnlyEvent o = true)
       (trace (run env (getNearest session) s))) /\
    (queried (trace (run env (getNearestByName name session) s)) =
       [getNearestByName_query name] /\
     Forall (fun o => obsIn readOnlyEvent o = true)
       (trace (run env (getNearestByName name session) s))).
Proof.
  intros env s session name.
  rewrite getNearestWithDistances_queryOp, getNearest_queryOp, getNearestByName_queryOp.
  repeat split;
    first [ apply queried_queryOp; reflexivity
          | apply run_Emits, Emits_queryOp; intros; reflexivity ].
Qed.

(** ** The print loop *)

Lemma length_prints (vs : list Value) (answers : list (list Byte.byte * option error)) :
  length answers = length vs ->
  length (concat (zip_with printObs vs answers)) = (2 * length vs)%nat.
Proof.
  revert answers. induction vs as [| v vs IH]; intros [| a answers] Hlen;
    simpl in Hlen; try discriminate; [reflexivity |].
  cbn [zip_with concat]. rewrite length_app, IH by congruence. simpl. lia.
Qed.

(** X7. The loop [for k := range rows { printStructAsJSON(rows[k]) }] never
    indexes outside the slice: for every slice, the empty one and one with nil
    elements included, it returns after exactly two calls per element (the
    encoder, then the log), and the values it prints are the elements of the
    slice in order. *)
Theorem printRows_prints_each_row_once :
  forall (env : Env) (A : Type) (inj : A -> Value) (rows : list A) (s : St env),
    outcome (run env (printRows inj rows) s) = Returned tt /\
    printed (trace (run env (printRows inj rows) s)) = map inj rows /\
    length (trace (run env (printRows inj rows) s)) = (2 * length rows)%nat.
Proof.
  intros env A inj rows s.
  destruct (run_printRows env inj rows s) as (answers & s' & Hlen & Hrun).
  rewrite Hrun, trace_triple.
  assert (Hlen' : length answers = length (map inj rows))
    by (rewrite length_map; exact Hlen).
  split; [reflexivity |]. split.
  - apply printed_prints, Hlen'.
  - rewrite length_prints by exact Hlen'. rewrite length_map. reflexivity.
Qed.

(** ** Record Loader: the log *)




(** ** The whole program against the store *)

Section StorePipeline.

Variable nearest : list Datum -> Point -> GetNearestOpts -> list (float * Datum).
Variable render : Value -> list Byte.byte.
Variable decoder : Decoder.

Lemma tableState_eta (t : TableState) : {| indexes := indexes t; docs := docs t |} = t.
Proof. destruct t; reflexivity. Qed.

(** The insert loop on an existing table: every write succeeds and appends. *)
Lemma run_insert_loop_store (session : Session) (rs : list Record_) :
  forall (st : Store) (tables : gmap string TableState) (t : TableState),
    st !! DBName = Some tables ->
    tables !! tableName = Some t ->
    run (storeEnv nearest render decoder) (forEach rs (insertRecord session)) st =
      (Returned tt,
       map (fun r => Call (RunWrite (insertTerm r) session)
                       ({| Inserted := 1; Errors := 0 |}, None)) rs,
       <[DBName := <[tableName := {| indexes := indexes t; docs := docs t ++ map VDoc rs |}]> tables]>
         st).
Proof.
  induction rs as [| r rs IH]; intros st tables t Hdb Htbl.
  - simpl. rewrite app_nil_r, tableState_eta.
    rewrite (insert_id tables) by exact Htbl. rewrite insert_id by exact Hdb.
    reflexivity.
  - cbn [forEach map].
    assert (Hins : insertDoc DBName tableName r st =
                   (None, <[DBName := <[tableName := {| indexes := indexes t;
                                                        docs := docs t ++ [VDoc r] |}]> tables]> st)).
    { unfold insertDoc. rewrite Hdb, Htbl. reflexivity. }
    set (st1 := <[DBName := <[tableName := {| indexes := indexes t;
                                             docs := docs t ++ [VDoc r] |}]> tables]> st) in *.
    assert (H1 : run (storeEnv nearest render decoder) (insertRecord session r) st =
                 (Returned tt,
                  [Call (RunWrite (insertTerm r) session)
                     ({| Inserted := 1; Errors := 0 |}, None)], st1)).
    { unfold insertRecord.
      change (run (storeEnv nearest render decoder) ?p st)
        with (let '(x, s1) :=
                (let '(err, st') := insertDoc DBName tableName r st in
                 (({| Inserted := match err with Some _ => 0 | None => 1 end;
                      Errors := match err with Some _ => 1 | None => 0 end |}, err), st'))
              in
              let '(o, tr, s2) :=
                run (storeEnv nearest render decoder)
                  (let '(_, err) := x in
                   match err with
                   | Some e => call (LogPrintln [AStr "Cannot create record: "; AErr e])
                   | None => Ret tt
                   end) s1
              in (o, Call (RunWrite (insertTerm r) session) x :: tr, s2)).
      rewrite Hins. reflexivity. }
    assert (H2 := IH st1 (<[tableName := {| indexes := indexes t;
                                            docs := docs t ++ [VDoc r] |}]> tables)
                    {| indexes := indexes t; docs := docs t ++ [VDoc r] |}
                    (lookup_insert_eq _ _ _) (lookup_insert_eq _ _ _)).
    rewrite (run_bind_eq _ _ _ _ _ _ _ _ _ _ H1 H2).
    cbn [indexes docs]. unfold st1. rewrite !insert_insert_eq, <- app_assoc. reflexivity.
Qed.

Lemma run_insertRecords_store (session : Session) (st : Store)
    (tables : gmap string TableState) (t : TableState) :
  st !! DBName = Some tables ->
  tables !! tableName = Some t ->
  run (storeEnv nearest render decoder) (insertRecords session) st =
    (Returned tt,
     Call (FmtPrintln "insert records") tt ::
     map (fun r => Call (RunWrite (insertTerm r) session)
                     ({| Inserted := 1; Errors := 0 |}, None)) records ++
     [Call (FmtPrintln "") tt],
     <[DBName := <[tableName := {| indexes := indexes t; docs := docs t ++ map VDoc records |}]> tables]>
       st).
Proof.
  intros Hdb Htbl. unfold insertRecords.
  eapply run_call_bind_ans; [reflexivity |].
  eapply run_bind_eq; [exact (run_insert_loop_store session records st tables t Hdb Htbl) |].
  apply run_call_ans. reflexivity.
Qed.

(** A program that only reads leaves the store as it found it. *)
Lemma readOnly_keeps_store {R : Type} (p : Prog R) :
  Emits readOnlyEvent p ->
  forall st : Store, final (run (storeEnv nearest render decoder) p st) = st.
Proof.
  induction 1 as [r | X e k He Hk IH | args | msg]; intros st; try reflexivity.
  assert (Hsame : after (storeEnv nearest render decoder) e st = st).
  { unfold after. destruct e; simpl in He; try discriminate; try reflexivity.
    simpl. destruct (eval nearest st None None t); reflexivity. }
  change (Vis e k) with (call e ≫= k).
  rewrite run_call_bind, Hsame. unfold final at 1; cbn [snd]. apply IH.
Qed.

Lemma query_keeps_store {A : Type} (header : string) (query : Term)
    (all : Cursor -> list A -> Event (list A * option error)) (inj : A -> Value)
    (session : Session) (st : Store) :
  (forall c rows, readOnlyEvent _ (all c rows) = true) ->
  final (run (storeEnv nearest render decoder) (queryOp header query all inj session) st) = st.
Proof.
  intros Ha. apply readOnly_keeps_store, Emits_queryOp; intros; first [reflexivity | apply Ha].
Qed.

Lemma run_main_store (st : Store) (tables : gmap string TableState) :
  st !! DBName = Some tables ->
  outcome (run (storeEnv nearest render decoder) main st) = Returned tt /\
  final (run (storeEnv nearest render decoder) main st) =
    <[DBName := <[tableName := seededTable]> tables]> st.
Proof.
  intros Hdb.
  set (st1 := <[DBName := <[tableName := freshTable]> tables]> st).
  assert (Hsetup := run_createTable_store nearest render decoder st tables (Some 1%nat) Hdb).
  fold st1 in Hsetup.
  destruct (run_afterSetup (storeEnv nearest render decoder) (Some 1%nat) st1)
    as (s1 & s2 & s3 & s4 & Hout & _ & Hfinal & Hs1 & Hs2 & Hs3 & Hs4).
  assert (Hload := run_insertRecords_store (Some 1%nat) st1
                     (<[tableName := freshTable]> tables) freshTable
                     (lookup_insert_eq _ _ _) (lookup_insert_eq _ _ _)).
  change (after (storeEnv nearest render decoder) (Sleep (1 * second)) ?s) with s in *.
  subst s1. rewrite Hload in Hs2. unfold final in Hs2 at 1; cbn [snd] in Hs2.
  rewrite getNearestWithDistances_queryOp in Hs3.
  rewrite query_keeps_store in Hs3 by reflexivity. subst s3.
  rewrite getNearest_queryOp in Hs4.
  rewrite query_keeps_store in Hs4 by reflexivity. subst s4.
  rewrite getNearestByName_queryOp, query_keeps_store in Hfinal by reflexivity.
  assert (Hmain : run (storeEnv nearest render decoder) main st =
                  (outcome (run (storeEnv nearest render decoder) (afterSetup (Some 1%nat)) st1),
                   Call (Connect {| Address := "127.0.0.1" |}) (Some 1%nat, None) ::
                   createTableObs (Some 1%nat) (tableDrop DBName tableName st).1 None None ++
                   trace (run (storeEnv nearest render decoder) (afterSetup (Some 1%nat)) st1),
                   final (run (storeEnv nearest render decoder) (afterSetup (Some 1%nat)) st1))).
  { unfold main.
    eapply run_call_bind_ans; [reflexivity |].
    cbv beta iota. rewrite bind_Ret.
    change (createTable (Some 1%nat) ≫= _)
      with (createTable (Some 1%nat) ;; afterSetup (Some 1%nat)).
    rewrite run_bind.
    change (after (storeEnv nearest render decoder) (Connect {| Address := "127.0.0.1" |}) st)
      with st.
    rewrite Hsetup.
    destruct (run (storeEnv nearest render decoder) (afterSetup (Some 1%nat)) st1) as [[o tr] sf].
    reflexivity. }
  rewrite Hmain. unfold outcome at 1, final at 1; cbn [fst snd].
  split; [exact Hout |].
  rewrite Hfinal, Hs2. unfold st1. cbn [indexes docs freshTable].
  rewrite !insert_insert_eq. reflexivity.
Qed.

(** X9. Against a store that has the table, [insertRecords] is append-only: every
    write succeeds, nothing is logged, and the table afterwards holds the
    documents it held before, in their order, followed by the five seed
    records in list order; its indexes and the other tables are unchanged.
    (Loading twice therefore leaves ten more documents, each name twice.) *)
Theorem insertRecords_appends_to_table :
  forall (st : Store) (tables : gmap string TableState) (t : TableState)
         (session : Session),
    st !! DBName = Some tables ->
    tables !! tableName = Some t ->
    outcome (run (storeEnv nearest render decoder) (insertRecords session) st) = Returned tt /\
    logged (trace (run (storeEnv nearest render decoder) (insertRecords session) st)) = [] /\
    final (run (storeEnv nearest render decoder) (insertRecords session) st) =
      <[DBName := <[tableName := {| indexes := indexes t; docs := docs t ++ map VDoc records |}]>
                    tables]> st.
Proof.
  intros st tables t session Hdb Htbl.
  rewrite (run_insertRecords_store session st tables t Hdb Htbl).
  repeat split.
Qed.

(** X10. Against every store that has the database "test", [main] runs to
    completion and leaves the table "geospatial" with the one geospatial
    index "area" and exactly the five seed records, in list order, whatever
    the table held before; the other tables are untouched.  Running the
    program a second time leaves the same store: the records do not
    accumulate from run to run. *)
Theorem main_leaves_the_seeded_table :
  forall (st : Store) (tables : gmap string TableState),
    st !! DBName = Some tables ->
    outcome (run (storeEnv nearest render decoder) main st) = Returned tt /\
    final (run (storeEnv nearest render decoder) main st) =
      <[DBName := <[tableName := seededTable]> tables]> st /\
    final (run (storeEnv nearest render decoder) (main ;; main) st) =
      final (run (storeEnv nearest render decoder) main st).
Proof.
  intros st tables Hdb.
  destruct (run_main_store st tables Hdb) as [Hout Hfinal].
  split; [exact Hout |]. split; [exact Hfinal |].
  rewrite (run_seq (storeEnv nearest render decoder) main main st Hout).
  unfold final at 1; cbn [snd].
  rewrite Hfinal.
  destruct (run_main_store (<[DBName := <[tableName := seededTable]> tables]> st)
              (<[tableName := seededTable]> tables) (lookup_insert_eq _ _ _))
    as [_ Hagain].
  rewrite Hagain, !insert_insert_eq. reflexivity.
Qed.

End StorePipeline.

(** The seed records are loaded twice into the freshly set up table. *)
Lemma insertRecords_appends_to_table_witness :
  outcome (run (storeEnv flatNearest noRender zeroFill) (insertRecords (Some 1%nat)) seededStore)
    = Returned tt /\
  logged (trace (run (storeEnv flatNearest noRender zeroFill) (insertRecords (Some 1%nat))
                   seededStore)) = [] /\
  final (run (storeEnv flatNearest noRender zeroFill) (insertRecords (Some 1%nat)) seededStore) =
    <[DBName := <[tableName := {| indexes := indexes seededTable;
                                  docs := docs seededTable ++ map VDoc records |}]>
                  {[ tableName := seededTable ]}]> seededStore.
Proof.
  apply (insertRecords_appends_to_table flatNearest noRender zeroFill seededStore
           {[ tableName := seededTable ]} seededTable (Some 1%nat)); reflexivity.
Defined.

(** A store in use, with other documents and another index on the table. *)
Lemma main_leaves_the_seeded_table_witness :
  outcome (run (storeEnv flatNearest noRender zeroFill) main usedStore) = Returned tt /\
  final (run (storeEnv flatNearest noRender zeroFill) main usedStore) =
    <[DBName := <[tableName := seededTable]> usedTables]> usedStore /\
  final (run (storeEnv flatNearest noRender zeroFill) (main ;; main) usedStore) =
    final (run (storeEnv flatNearest noRender zeroFill) main usedStore).
Proof.
  apply (main_leaves_the_seeded_table flatNearest noRender zeroFill usedStore usedTables).
  reflexivity.
Defined.
